(** * machine2: the autonomous poster, the research scheduler and the
      reply builder, embedded from the Python sources.

    Definitions:
    - [Py]         Python's [str] methods and exceptions used by the scripts
    - [Json]       values decoded by [json.loads] and the library's contract
    - [Letta]      chunks of a streamed agent invocation
    - [Store]      the log files, the topics file and the records created
    - [Poster]     autonomous_poster.py
    - [Research]   autonomous_research.py
    - [Reply]      reply_to_post.py
    - [Scenario]   concrete streams, topics and services
    - [PosterCli]  autonomous_poster.py, [main]
    - [ResearchCli] autonomous_research.py, [list_topics]
    - [Invoke]     invoke_gauge.py
    - [ReplyCli]   reply_to_post.py, the script's entry
    - [Terms], [Cases]  more vocabulary and concrete data

    Theorems:
    - [StringFacts], [OrderFacts]
    - [PosterProofs]    the stream aggregator
    - [ResearchProofs]  the topic queue and the selection of the next topic
    - [ReplyProofs]     the URL parser and the reply flow
    - [AttemptLog]      what each flow writes to the logs
    - [Runs]            the statements on concrete runs
    - [PosterMore], [QueueMore], [ResearchMore], [ListingMore],
      [ReplyMore], [InvokeMore], [MoreRuns]  further properties of the
      code, numbered X1, X2, ...

    Strings are [string]: sequences of one-byte characters.  [lower] and
    [isspace] are Python's restricted to ASCII text.  The clock, the
    random choice of a prompt and the answers of the remote services are
    inputs of the flows; the configuration files are read before the
    flows start. *)

From Stdlib Require Import String Ascii List Bool Arith NArith ZArith Lia.
From Stdlib Require Import Permutation Sorted DecimalString.
Import ListNotations.
Open Scope string_scope.
Open Scope list_scope.

(* ================================================================== *)
(** * Python strings and exceptions *)
(* ================================================================== *)

Module Py.

(** Exceptions the scripts raise themselves or receive from the
    interpreter and from the remote clients. *)
Inductive exn : Type :=
| ValueError (msg : string)
| TypeError
| IndexError
| KeyError
| AttributeError
| JSONDecodeError
| ServiceError (msg : string).

Inductive result (A : Type) : Type :=
| Ok (a : A)
| Raise (e : exn).
Arguments Ok {A} a.
Arguments Raise {A} e.

Definition bind {A B} (r : result A) (k : A -> result B) : result B :=
  match r with
  | Ok a => k a
  | Raise e => Raise e
  end.

Definition is_ok {A} (r : result A) : bool :=
  match r with Ok _ => true | Raise _ => false end.

(** [c.isspace()] for a character below 128: tab, line feed, vertical
    tab, form feed, carriage return, the four separators 28..31 and the
    space. *)
Definition isspace (c : ascii) : bool :=
  let n := nat_of_ascii c in
  (((9 <=? n) && (n <=? 13)) || ((28 <=? n) && (n <=? 32)))%nat.

Fixpoint lstrip (s : string) : string :=
  match s with
  | EmptyString => EmptyString
  | String c s' => if isspace c then lstrip s' else s
  end.

(** [rstrip] keeps a character when it is not a space or when something
    survives to its right. *)
Fixpoint rstrip (s : string) : string :=
  match s with
  | EmptyString => EmptyString
  | String c s' =>
      match rstrip s' with
      | EmptyString => if isspace c then EmptyString else String c EmptyString
      | r => String c r
      end
  end.

Definition strip (s : string) : string := rstrip (lstrip s).

Definition lower_char (c : ascii) : ascii :=
  let n := nat_of_ascii c in
  if ((65 <=? n) && (n <=? 90))%nat then ascii_of_nat (n + 32) else c.

Fixpoint lower (s : string) : string :=
  match s with
  | EmptyString => EmptyString
  | String c s' => String (lower_char c) (lower s')
  end.

(** [s[:n]] *)
Fixpoint slice_to (n : nat) (s : string) : string :=
  match n, s with
  | O, _ => EmptyString
  | _, EmptyString => EmptyString
  | S k, String c s' => String c (slice_to k s')
  end.

(** [s.replace(old, new)] for a non-empty [old]: occurrences are found
    left to right and do not overlap.  [skip] counts the characters of
    an occurrence still to be dropped. *)
Fixpoint replace_from (old new s : string) (skip : nat) : string :=
  match s with
  | EmptyString => EmptyString
  | String c s' =>
      match skip with
      | S k => replace_from old new s' k
      | O =>
          if prefix old s
          then new ++ replace_from old new s' (String.length old - 1)
          else String c (replace_from old new s' 0)
      end
  end.

Definition replace (old new s : string) : string :=
  replace_from old new s 0.

(** [s.split(sep)] for a one-character separator: never empty. *)
Fixpoint split (sep : ascii) (s : string) : list string :=
  match s with
  | EmptyString => [EmptyString]
  | String c s' =>
      if Ascii.eqb c sep then EmptyString :: split sep s'
      else match split sep s' with
           | [] => [String c EmptyString]
           | w :: ws => String c w :: ws
           end
  end.

(** [l[-1]] on a list known to be non-empty, with the default for the
    empty list made explicit. *)
Definition last_item (l : list string) : string := List.last l EmptyString.

(** The string with [f] applied to each of its characters. *)
Fixpoint map_chars (f : ascii -> ascii) (s : string) : string :=
  match s with
  | EmptyString => EmptyString
  | String c s' => String (f c) (map_chars f s')
  end.

(** Python's truth value of a string. *)
Definition truthy_str (s : string) : bool := negb (s =? "").

End Py.

Export Py.

Notation "x <- r ;; k" := (Py.bind r (fun x => k))
  (at level 61, r at next level, right associativity).

(* ================================================================== *)
(** * JSON values and the [json] library *)
(* ================================================================== *)

Module Json.

#[local] Set Warnings "-register-all".

(** What [json.loads] returns and [json.dump] accepts.  A [JDict] lists
    its items in insertion order; a number is an [int], the only kind the
    documents and tool calls of these scripts hold. *)
Inductive json : Type :=
| JNull
| JBool (b : bool)
| JNum (n : Z)
| JStr (s : string)
| JList (l : list json)
| JDict (d : list (string * json)).

(** [d.get(k)]: the value bound to [k], if any. *)
Fixpoint dict_get (d : list (string * json)) (k : string) : option json :=
  match d with
  | [] => None
  | (k', v) :: d' => if k' =? k then Some v else dict_get d' k
  end.

(** [nodup_keys] holds of the key list of a Python dict. *)
Fixpoint nodup_keys (ks : list string) : bool :=
  match ks with
  | [] => true
  | k :: ks' => negb (existsb (String.eqb k) ks') && nodup_keys ks'
  end.

(** The values a Python program can hold: every dict has distinct keys. *)
Fixpoint json_wf (v : json) : bool :=
  match v with
  | JList l => forallb json_wf l
  | JDict d =>
      nodup_keys (map fst d) && forallb (fun kv => json_wf (snd kv)) d
  | _ => true
  end.

(** Python's truth value: [None], [False], [0], [""], [[]] and [{}] are
    false. *)
Definition truthy (v : json) : bool :=
  match v with
  | JNull => false
  | JBool b => b
  | JNum n => negb (n =? 0)%Z
  | JStr s => truthy_str s
  | JList l => match l with [] => false | _ => true end
  | JDict d => match d with [] => false | _ => true end
  end.

(** [v[0]] *)
Definition getitem0 (v : json) : result json :=
  match v with
  | JList (x :: _) => Ok x
  | JList [] => Raise IndexError
  | JStr (String c _) => Ok (JStr (String c EmptyString))
  | JStr EmptyString => Raise IndexError
  | JDict _ => Raise KeyError        (* the keys of a decoded object are strings *)
  | JNull | JBool _ | JNum _ => Raise TypeError
  end.

(** [v[:n]]: strings and lists can be sliced, nothing else (a dict
    raises TypeError, KeyError from Python 3.12 on). *)
Definition getslice_to (n : nat) (v : json) : result json :=
  match v with
  | JStr s => Ok (JStr (slice_to n s))
  | JList l => Ok (JList (firstn n l))
  | JDict _ | JNull | JBool _ | JNum _ => Raise TypeError
  end.

(** The [json] module.  [payload] is a [str] holding JSON text: what
    [json.dump] writes to a file and what a tool call carries as its
    [arguments]. *)
Class JsonLib : Type := {
  payload : Type;
  json_dumps : json -> payload;
  json_loads : payload -> option json
}.

(** The simplest library: the text of a value is the value itself. *)
Definition json_tree : JsonLib :=
  {| payload := json; json_dumps := fun v => v; json_loads := Some |}.

(** The library's contract: decoding what was encoded gives the value
    back. *)
Definition faithful (J : JsonLib) : Prop :=
  forall v, json_wf v = true -> json_loads (json_dumps v) = Some v.

End Json.

Export Json.

(* ================================================================== *)
(** * Chunks of a streamed agent invocation *)
(* ================================================================== *)

Module Letta.
Section Chunks.
Context {J : JsonLib}.

Record ToolCall : Type := {
  name : string;
  arguments : payload
}.

(** A chunk as the scripts probe it: a field is [Some] when
    [hasattr(chunk, field)] holds.  [function_call] is a dict whose
    ['name'] may be absent; [message] stands for [str(chunk.message)]
    and [str] for [str(chunk)]. *)
Record Chunk : Type := {
  message_type : option string;
  tool_call : option ToolCall;
  function_call : option (option string);
  content : option string;
  text : option string;
  message : option string;
  str : string
}.

(** What iterating the stream gives next: a chunk, or an exception
    raised by the transport.  A failure of [messages.create] itself is
    the stream that starts with a [Fault]: both are raised at the same
    place of the caller. *)
Inductive StreamItem : Type :=
| Yield (c : Chunk)
| Fault (e : exn).

Definition has_type (c : Chunk) (t : string) : bool :=
  match message_type c with
  | Some t' => t' =? t
  | None => false
  end.

(** The chunks read by a loop that breaks after ['done'], when the
    transport raises nothing before. *)
Fixpoint chunks_read (stream : list StreamItem) : result (list Chunk) :=
  match stream with
  | [] => Ok []
  | Fault e :: _ => Raise e
  | Yield c :: rest =>
      if str c =? "done" then Ok [c]
      else cs <- chunks_read rest ;; Ok (c :: cs)
  end.

Definition assistant_messages (cs : list Chunk) : list Chunk :=
  filter (fun c => has_type c "assistant_message") cs.

End Chunks.
End Letta.

(* ================================================================== *)
(** * Files and remote records the flows write *)
(* ================================================================== *)

Module Store.

(** A line of autonomous_posts.log, as [log_post_attempt] builds it. *)
Record PostEntry : Type := {
  pe_timestamp : string;
  pe_success : bool;
  pe_topic : string;
  pe_content : json;
  pe_error : option exn
}.

(** A line of research.log, as [log_research] builds it. *)
Record ResearchEntry : Type := {
  re_timestamp : string;
  re_topic : string;
  re_topic_id : string;
  re_success : bool;
  re_findings_length : nat;
  re_error : option exn
}.

Record StrongRef : Type := { uri : string; cid : string }.

Record ReplyRef : Type := { root : StrongRef; parent : StrongRef }.

(** The record [reply_to_post] submits. *)
Record PostRecord : Type := {
  type_ : string;
  rec_text : string;
  reply : ReplyRef;
  createdAt : string
}.

Record CreateRecord : Type := {
  repo : string;
  collection : string;
  record : PostRecord
}.

Section World.
Context {J : JsonLib}.

(** Everything a flow can change: the two log files, the topics file
    (absent until first written) and the [create_record] calls issued
    to the repository service. *)
Record World : Type := {
  post_log : list PostEntry;
  research_log : list ResearchEntry;
  topics_file : option payload;
  created : list CreateRecord
}.

Definition append_post_log (e : PostEntry) (w : World) : World :=
  {| post_log := post_log w ++ [e];
     research_log := research_log w;
     topics_file := topics_file w;
     created := created w |}.

Definition append_research_log (e : ResearchEntry) (w : World) : World :=
  {| post_log := post_log w;
     research_log := research_log w ++ [e];
     topics_file := topics_file w;
     created := created w |}.

Definition write_topics_file (p : payload) (w : World) : World :=
  {| post_log := post_log w;
     research_log := research_log w;
     topics_file := Some p;
     created := created w |}.

Definition issue_create_record (c : CreateRecord) (w : World) : World :=
  {| post_log := post_log w;
     research_log := research_log w;
     topics_file := topics_file w;
     created := created w ++ [c] |}.

End World.
End Store.

Export Store.

(* ================================================================== *)
(** * autonomous_poster.py *)
(* ================================================================== *)

Module Poster.
Import Letta.

Section Flow.
Context {J : JsonLib}.

(** [log_post_attempt]: one line appended to autonomous_posts.log.
    [now] is the reading of [datetime.now().isoformat()]. *)
Definition log_post_attempt (now : string) (success : bool)
    (topic : string) (content : json) (error : option exn)
    (w : World) : World :=
  append_post_log
    {| pe_timestamp := now; pe_success := success; pe_topic := topic;
       pe_content := content; pe_error := error |} w.

(** The locals of the collection loop. *)
Record Collected : Type := {
  all_messages : list Chunk;
  tool_calls : list Chunk;
  posted : bool;
  post_content : json
}.

Definition nothing_collected : Collected :=
  {| all_messages := []; tool_calls := []; posted := false;
     post_content := JNull |}.

(** [json.loads(chunk.tool_call.arguments)] *)
Definition loads_arguments (tc : ToolCall) : result json :=
  match json_loads (arguments tc) with
  | Some args => Ok args
  | None => Raise JSONDecodeError
  end.

(** [args.get('text', [None])[0]] *)
Definition args_text (args : json) : result json :=
  match args with
  | JDict d =>
      getitem0 (match dict_get d "text" with
                | Some v => v
                | None => JList [JNull]
                end)
  | _ => Raise AttributeError
  end.

(** The body of [for chunk in message_stream], before the test for
    ['done']. *)
Definition on_chunk (chunk : Chunk) (st : Collected) : result Collected :=
  match message_type chunk with
  | Some mt =>
      if mt =? "tool_call_message" then
        let st1 := {| all_messages := all_messages st;
                      tool_calls := tool_calls st ++ [chunk];
                      posted := posted st;
                      post_content := post_content st |} in
        match tool_call chunk with
        | Some tc =>
            if name tc =? "create_new_bluesky_post" then
              args <- loads_arguments tc ;;
              pc <- args_text args ;;
              Ok {| all_messages := all_messages st1;
                    tool_calls := tool_calls st1;
                    posted := true;
                    post_content := pc |}
            else Ok st1
        | None => Ok st1
        end
      else if mt =? "assistant_message" then
        Ok {| all_messages := all_messages st ++ [chunk];
              tool_calls := tool_calls st;
              posted := posted st;
              post_content := post_content st |}
      else Ok st
  | None => Ok st
  end.

(** The loop: it ends when the stream is exhausted or after the chunk
    whose [str] is ['done'], and an exception leaves it at once. *)
Fixpoint collect (stream : list StreamItem) (st : Collected)
    : result Collected :=
  match stream with
  | [] => Ok st
  | Fault e :: _ => Raise e
  | Yield chunk :: rest =>
      st' <- on_chunk chunk st ;;
      if str chunk =? "done" then Ok st' else collect rest st'
  end.

(** What one message adds to [response_text]. *)
Definition message_text (msg : Chunk) : string :=
  match content msg with
  | Some c => c ++ " "
  | None =>
      match text msg with
      | Some t => t ++ " "
      | None =>
          match message msg with
          | Some m => m ++ " "
          | None => ""
          end
      end
  end.

Definition response_text_of (msgs : list Chunk) : string :=
  fold_left (fun acc msg => (acc ++ message_text msg)%string) msgs "".

(** The dict the function returns; the fields are its keys
    ['success'], ['posted'], ['content'], ['response'],
    ['tool_calls']. *)
Record PostResult : Type := {
  res_success : bool;
  res_posted : bool;
  res_content : json;
  res_response : string;
  res_tool_calls : nat
}.

(** The [try] block up to the call of [log_post_attempt]: the loop,
    the result dict, then the three-way report, whose first branch
    slices [post_content] and whose second slices [response_text]. *)
Definition attempt (stream : list StreamItem) (dry_run : bool)
    : result PostResult :=
  st <- collect stream nothing_collected ;;
  let response_text := response_text_of (all_messages st) in
  let result :=
    {| res_success := posted st || dry_run;
       res_posted := posted st;
       res_content := if truthy (post_content st)
                      then post_content st
                      else JStr (strip response_text);
       res_response := strip response_text;
       res_tool_calls := List.length (tool_calls st) |} in
  _ <- (if posted st then getslice_to 100 (post_content st)
        else if dry_run then Ok (JStr (slice_to 100 response_text))
        else Ok JNull) ;;
  Ok result.

(** [generate_autonomous_post], from the [try] on.  [topic_prompt] is
    the prompt [random.choice] picked and [stream] the agent's answer
    to it. *)
Definition generate_autonomous_post (topic_prompt now : string)
    (stream : list StreamItem) (dry_run : bool) (w : World)
    : result PostResult * World :=
  match attempt stream dry_run with
  | Ok result =>
      (Ok result,
       log_post_attempt now (res_success result) topic_prompt
         (res_content result) None w)
  | Raise e =>
      (Raise e, log_post_attempt now false topic_prompt JNull (Some e) w)
  end.

(** ** Vocabulary of the statements *)

(** The loop body folded over the chunks read. *)
Fixpoint run (cs : list Chunk) (st : Collected) : result Collected :=
  match cs with
  | [] => Ok st
  | c :: cs' => st' <- on_chunk c st ;; run cs' st'
  end.

(** A chunk that calls the publishing tool, with its call. *)
Definition publish_call (c : Chunk) : option ToolCall :=
  if has_type c "tool_call_message" then
    match tool_call c with
    | Some tc =>
        if name tc =? "create_new_bluesky_post" then Some tc else None
    | None => None
    end
  else None.

(** The first text of a publishing call, as the loop extracts it. *)
Definition first_text (tc : ToolCall) : result json :=
  args <- loads_arguments tc ;; args_text args.

Definition tool_call_messages (cs : list Chunk) : list Chunk :=
  filter (fun c => has_type c "tool_call_message") cs.

(** [raw_text]: every assistant text in arrival order, each followed
    by the separator. *)
Definition raw_text (cs : list Chunk) : string :=
  String.concat "" (map message_text (assistant_messages cs)).

End Flow.
End Poster.

(* ================================================================== *)
(** * autonomous_research.py *)
(* ================================================================== *)

Module Research.
Import Letta.

(** A topic dict, with the five keys the script writes and reads. *)
Record Topic : Type := {
  id : string;
  title : string;
  description : string;
  priority : string;
  last_researched : option string
}.

(** The queue document: [{'active': [...], 'completed': [...]}]. *)
Record Topics : Type := {
  active : list Topic;
  completed : list Topic
}.

(** ** The document as a JSON value *)

Definition opt_str_to_json (o : option string) : json :=
  match o with
  | Some s => JStr s
  | None => JNull
  end.

Definition topic_to_json (t : Topic) : json :=
  JDict [("id", JStr (id t));
         ("title", JStr (title t));
         ("description", JStr (description t));
         ("priority", JStr (priority t));
         ("last_researched", opt_str_to_json (last_researched t))].

Definition topics_to_json (q : Topics) : json :=
  JDict [("active", JList (map topic_to_json (active q)));
         ("completed", JList (map topic_to_json (completed q)))].

Definition get_str (d : list (string * json)) (k : string) : option string :=
  match dict_get d k with
  | Some (JStr s) => Some s
  | _ => None
  end.

Definition get_opt_str (d : list (string * json)) (k : string)
    : option (option string) :=
  match dict_get d k with
  | Some (JStr s) => Some (Some s)
  | Some JNull => Some None
  | _ => None
  end.

Definition topic_of_json (v : json) : option Topic :=
  match v with
  | JDict d =>
      match get_str d "id", get_str d "title", get_str d "description",
            get_str d "priority", get_opt_str d "last_researched" with
      | Some i, Some t, Some de, Some p, Some lr =>
          Some {| id := i; title := t; description := de; priority := p;
                  last_researched := lr |}
      | _, _, _, _, _ => None
      end
  | _ => None
  end.

Fixpoint topic_list_of_json (l : list json) : option (list Topic) :=
  match l with
  | [] => Some []
  | v :: l' =>
      match topic_of_json v, topic_list_of_json l' with
      | Some t, Some ts => Some (t :: ts)
      | _, _ => None
      end
  end.

Definition topics_of_json (v : json) : option Topics :=
  match v with
  | JDict d =>
      match dict_get d "active", dict_get d "completed" with
      | Some (JList a), Some (JList c) =>
          match topic_list_of_json a, topic_list_of_json c with
          | Some ta, Some tc => Some {| active := ta; completed := tc |}
          | _, _ => None
          end
      | _, _ => None
      end
  | _ => None
  end.

(** ** Selection order *)

(** [priority_order = {'high': 0, 'medium': 1, 'low': 2}] *)
Definition priority_order (p : string) : option nat :=
  if p =? "high" then Some 0
  else if p =? "medium" then Some 1
  else if p =? "low" then Some 2
  else None.

(** The [key] lambda:
    [(priority_order.get(t['priority'], 3),
      t['last_researched'] or '1970-01-01')]. *)
Definition sort_key (t : Topic) : nat * string :=
  (match priority_order (priority t) with
   | Some r => r
   | None => 3
   end,
   match last_researched t with
   | Some s => if truthy_str s then s else "1970-01-01"
   | None => "1970-01-01"
   end).

(** [<] on the key tuples: the first components that differ decide. *)
Definition key_lt (a b : nat * string) : bool :=
  (fst a <? fst b)%nat || ((fst a =? fst b)%nat && (snd a <? snd b)%string).

Definition key_le (a b : nat * string) : bool := negb (key_lt b a).

Section Sorted.
Context {A : Type} (key : A -> nat * string).

(** [sorted(l, key=key)] is stable and compares with [<] only:
    an element goes after the elements that are not greater. *)
Fixpoint insert (x : A) (l : list A) : list A :=
  match l with
  | [] => [x]
  | y :: l' =>
      if key_lt (key y) (key x) then y :: insert x l' else x :: y :: l'
  end.

Fixpoint sorted (l : list A) : list A :=
  match l with
  | [] => []
  | x :: l' => insert x (sorted l')
  end.
End Sorted.

(** [sorted(topics['active'], key=...)], then [sorted_topics[0]], with the
    test for an empty list that precedes them. *)
Definition sorted_topics (act : list Topic) : list Topic :=
  sorted sort_key act.

Definition select_next (act : list Topic) : option Topic :=
  match act with
  | [] => None
  | _ :: _ => hd_error (sorted_topics act)
  end.

(** The object picked, named by its position in [topics['active']]:
    [sorted] returns the dicts of the list themselves. *)
Definition enumerate (act : list Topic) : list (nat * Topic) :=
  combine (seq 0 (List.length act)) act.

Definition select_index (act : list Topic) : option (nat * Topic) :=
  hd_error (sorted (fun it => sort_key (snd it)) (enumerate act)).

Fixpoint set_nth (n : nat) (t : Topic) (l : list Topic) : list Topic :=
  match l, n with
  | [], _ => []
  | _ :: l', O => t :: l'
  | x :: l', S k => x :: set_nth k t l'
  end.

(** ** Vocabulary of the statements *)

(** The priorities the script ranks by name. *)
Definition recognized (p : string) : Prop :=
  p = "high" \/ p = "medium" \/ p = "low".

Definition rank (t : Topic) : nat := fst (sort_key t).

(** Recency as the specification words it: a topic never researched is
    earlier than any researched one, and timestamps ascend. *)
Definition earlier (a b : option string) : bool :=
  match a, b with
  | None, Some _ => true
  | Some x, Some y => (x <? y)%string
  | _, None => false
  end.

(** [spec_before u t]: [u] is strictly ahead of [t] in the order of the
    specification (priority rank, then recency with a missing timestamp
    first). *)
Definition spec_before (u t : Topic) : bool :=
  (rank u <? rank t)%nat
  || ((rank u =? rank t)%nat
      && earlier (last_researched u) (last_researched t)).

(** Every timestamp recorded in the list is later than the date the
    script substitutes for a missing one. *)
Definition after_epoch (act : list Topic) : Prop :=
  forall u s, In u act -> last_researched u = Some s ->
              ("1970-01-01" <? s)%string = true.



(** The topics a fresh deployment starts with. *)
Definition default_topics : Topics :=
  {| active :=
       [ {| id := "asi-alignment";
            title := "ASI Alignment and Safety Research";
            description := "Latest developments in AI safety, alignment, and superintelligence";
            priority := "high";
            last_researched := None |};
         {| id := "vr-computation";
            title := "VR and Computational Interfaces";
            description := "Virtual reality, spatial computing, and new interaction paradigms";
            priority := "high";
            last_researched := None |};
         {| id := "math-ai";
            title := "Mathematical Foundations of AI";
            description := "Theoretical underpinnings, information theory, optimization";
            priority := "medium";
            last_researched := None |};
         {| id := "cypherpunk";
            title := "Cypherpunk and Digital Autonomy";
            description := "Privacy, cryptography, digital freedom, decentralization";
            priority := "medium";
            last_researched := None |};
         {| id := "data-science-methods";
            title := "Advanced Data Science Methods";
            description := "Novel techniques, probabilistic programming, causal inference";
            priority := "low";
            last_researched := None |} ];
     completed := [] |}.

Section Flow.
Context {J : JsonLib}.

(** [save_topics] *)
Definition save_topics (topics : Topics) (w : World) : World :=
  write_topics_file (json_dumps (topics_to_json topics)) w.

(** [load_topics]: the default document is written when the file does
    not exist.  A document that is not JSON raises in [json.load].  The
    model reads the document as a queue of topics with their five keys:
    a document of another shape, on which the script fails where it
    subscripts a missing key, is reported here as that [KeyError]. *)
Definition load_topics (w : World) : result Topics * World :=
  match topics_file w with
  | None =>
      (Ok default_topics,
       write_topics_file (json_dumps (topics_to_json default_topics)) w)
  | Some p =>
      match json_loads p with
      | None => (Raise JSONDecodeError, w)
      | Some v =>
          match topics_of_json v with
          | Some topics => (Ok topics, w)
          | None => (Raise KeyError, w)
          end
      end
  end.

(** [title.lower().replace(' ', '-')[:50]] *)
Definition topic_id_of (title : string) : string :=
  slice_to 50 (replace " " "-" (lower title)).

(** [add_topic] *)
Definition add_topic (title description priority : string) (w : World)
    : result Topic * World :=
  match load_topics w with
  | (Raise e, w1) => (Raise e, w1)
  | (Ok topics, w1) =>
      let topic_id := topic_id_of title in
      let new_topic :=
        {| id := topic_id; title := title; description := description;
           priority := priority; last_researched := None |} in
      let topics' :=
        {| active := active topics ++ [new_topic];
           completed := completed topics |} in
      (Ok new_topic, save_topics topics' w1)
  end.

(** [log_research]: one line appended to research.log. *)
Definition log_research (now : string) (topic : Topic) (success : bool)
    (findings : option string) (error : option exn) (w : World) : World :=
  append_research_log
    {| re_timestamp := now;
       re_topic := title topic;
       re_topic_id := id topic;
       re_success := success;
       re_findings_length :=
         match findings with
         | Some f => if truthy_str f then String.length f else 0
         | None => 0
         end;
       re_error := error |} w.

(** The locals of the collection loop of [conduct_research]. *)
Record Collected : Type := {
  all_messages : list Chunk;
  tool_calls : list Chunk;
  search_count : nat;
  archival_count : nat;
  blog_created : bool
}.

Definition nothing_collected : Collected :=
  {| all_messages := []; tool_calls := []; search_count := 0;
     archival_count := 0; blog_created := false |}.

Definition on_chunk (chunk : Chunk) (st : Collected) : Collected :=
  match message_type chunk with
  | Some mt =>
      if mt =? "function_call_message" then
        let st1 := {| all_messages := all_messages st;
                      tool_calls := tool_calls st ++ [chunk];
                      search_count := search_count st;
                      archival_count := archival_count st;
                      blog_created := blog_created st |} in
        match function_call chunk with
        | Some fc =>
            let call_name := match fc with Some n => n | None => "" end in
            if call_name =? "web_search" then
              {| all_messages := all_messages st1;
                 tool_calls := tool_calls st1;
                 search_count := search_count st1 + 1;
                 archival_count := archival_count st1;
                 blog_created := blog_created st1 |}
            else if call_name =? "archival_memory_insert" then
              {| all_messages := all_messages st1;
                 tool_calls := tool_calls st1;
                 search_count := search_count st1;
                 archival_count := archival_count st1 + 1;
                 blog_created := blog_created st1 |}
            else if call_name =? "create_whitewind_blog_post" then
              {| all_messages := all_messages st1;
                 tool_calls := tool_calls st1;
                 search_count := search_count st1;
                 archival_count := archival_count st1;
                 blog_created := true |}
            else st1
        | None => st1
        end
      else if mt =? "assistant_message" then
        {| all_messages := all_messages st ++ [chunk];
           tool_calls := tool_calls st;
           search_count := search_count st;
           archival_count := archival_count st;
           blog_created := blog_created st |}
      else st
  | None => st
  end.

Fixpoint collect (stream : list StreamItem) (st : Collected)
    : result Collected :=
  match stream with
  | [] => Ok st
  | Fault e :: _ => Raise e
  | Yield chunk :: rest =>
      let st' := on_chunk chunk st in
      if str chunk =? "done" then Ok st' else collect rest st'
  end.

Definition findings_of (msgs : list Chunk) : string :=
  fold_left
    (fun acc msg =>
       match text msg with
       | Some t => (acc ++ t ++ String "010"%char EmptyString)%string
       | None => acc
       end) msgs "".

(** The dict [conduct_research] returns. *)
Record ResearchResult : Type := {
  res_success : bool;
  res_findings : string;
  res_searches : nat;
  res_archival_entries : nat;
  res_blog_created : bool;
  res_tool_calls : nat
}.

(** [conduct_research], from the [try] on.  The topic dict is updated
    in place on success: the function gives it back.  [researched_at]
    and [logged_at] are the two readings of the clock. *)
Definition conduct_research (researched_at logged_at : string)
    (stream : list StreamItem) (topic : Topic) (w : World)
    : result ResearchResult * Topic * World :=
  match collect stream nothing_collected with
  | Ok st =>
      let findings := findings_of (all_messages st) in
      let result :=
        {| res_success := true;
           res_findings := strip findings;
           res_searches := search_count st;
           res_archival_entries := archival_count st;
           res_blog_created := blog_created st;
           res_tool_calls := List.length (tool_calls st) |} in
      let topic' :=
        {| id := id topic; title := title topic;
           description := description topic; priority := priority topic;
           last_researched := Some researched_at |} in
      (Ok result, topic',
       log_research logged_at topic' true (Some findings) None w)
  | Raise e =>
      (Raise e, topic,
       log_research logged_at topic false None (Some e) w)
  end.

(** [run_research_cycle], after the configuration is read: [None] when
    there is no active topic, else the result of the research on the
    topic picked; the document is saved after a research that
    returned. *)
Definition run_research_cycle (researched_at logged_at : string)
    (stream : list StreamItem) (w : World)
    : result (option ResearchResult) * World :=
  match load_topics w with
  | (Raise e, w1) => (Raise e, w1)
  | (Ok topics, w1) =>
      match active topics with
      | [] => (Ok None, w1)
      | _ :: _ =>
          match select_index (active topics) with
          | None => (Raise IndexError, w1)
          | Some (i, topic) =>
              match conduct_research researched_at logged_at stream
                      topic w1 with
              | (Raise e, _, w2) => (Raise e, w2)
              | (Ok result, topic', w2) =>
                  let topics' :=
                    {| active := set_nth i topic' (active topics);
                       completed := completed topics |} in
                  (Ok (Some result), save_topics topics' w2)
              end
          end
      end
  end.

End Flow.
End Research.

(* ================================================================== *)
(** * reply_to_post.py *)
(* ================================================================== *)

Module Reply.
Import Letta.

(** ** [parse_post_url] *)

(** [strip_prefix p s]: the rest of [s] after the literal [p]. *)
Fixpoint strip_prefix (p s : string) : option string :=
  match p with
  | EmptyString => Some s
  | String a p' =>
      match s with
      | String b s' => if Ascii.eqb a b then strip_prefix p' s' else None
      | EmptyString => None
      end
  end.

(** The group [[^/]*], greedy: the longest run without a slash, and what
    follows it. *)
Fixpoint span_segment (s : string) : string * string :=
  match s with
  | EmptyString => (EmptyString, EmptyString)
  | String c s' =>
      if Ascii.eqb c "/"%char then (EmptyString, s)
      else let (seg, rest) := span_segment s' in (String c seg, rest)
  end.

(** [re.match(r'https://bsky\.app/profile/([^/]+)/post/([^/]+)', url)]:
    the pattern is anchored at the start of [url] only.  A group cannot
    give a character back to let ['/post/'] match, since the character
    it would give back is not a slash: the match, if any, is the greedy
    one. *)
Definition re_match (url : string) : option (string * string) :=
  match strip_prefix "https://bsky.app/profile/" url with
  | None => None
  | Some r1 =>
      let (handle, r2) := span_segment r1 in
      if handle =? "" then None
      else
        match strip_prefix "/post/" r2 with
        | None => None
        | Some r3 =>
            let (rkey, _) := span_segment r3 in
            if rkey =? "" then None else Some (handle, rkey)
        end
  end.

(** ** Vocabulary of the statements *)

Fixpoint no_slash (s : string) : bool :=
  match s with
  | EmptyString => true
  | String c s' => negb (Ascii.eqb c "/"%char) && no_slash s'
  end.

(** A group of the pattern: one character at least, no slash. *)
Definition segment (s : string) : Prop := s <> "" /\ no_slash s = true.

(** The permalink of a post, and the URLs of exactly that shape. *)
Definition permalink (handle rkey : string) : string :=
  "https://bsky.app/profile/" ++ handle ++ "/post/" ++ rkey.

Definition is_permalink (url : string) : Prop :=
  exists handle rkey,
    segment handle /\ segment rkey /\ url = permalink handle rkey.

(** Where a greedy group stops: at the end of the text or before a
    slash. *)
Definition ends_segment (rest : string) : Prop :=
  rest = "" \/ exists rest', rest = String "/"%char rest'.

(** What the pattern matches, anchored at the start of [url]: a
    permalink whose record key runs to the end of [url] or to the next
    slash. *)
Definition matches (url handle rkey : string) : Prop :=
  exists rest,
    url = (permalink handle rkey ++ rest)%string
    /\ segment handle /\ segment rkey
    /\ ends_segment rest.

Definition parse_post_url (url : string) : result (string * string) :=
  match re_match url with
  | None => Raise (ValueError ("Invalid Bluesky post URL: " ++ url)%string)
  | Some groups => Ok groups
  end.

(** ** The Bluesky client *)

Record Config : Type := {
  username : string;
  password : string;
  pds_uri : string
}.

Record RecordResponse : Type := {
  record_cid : string;       (* post_record.cid *)
  record_text : string       (* post_record.value.text *)
}.

Record Profile : Type := {
  handle : string;
  display_name : option string
}.

(** The calls made on [BskyClient]; each answers or raises. *)
Record Bsky : Type := {
  login : string -> string -> result unit;
  resolve_handle : string -> result string;
  get_record : string -> string -> string -> result RecordResponse;
  get_profile : string -> result Profile;
  create_record : CreateRecord -> result string;
  me_did : string
}.

(** The dict [fetch_post] returns. *)
Record PostData : Type := {
  pd_uri : string;
  pd_cid : string;
  pd_author_handle : string;
  pd_author_display_name : string;
  pd_text : string
}.

(** [get_post_uri] *)
Definition get_post_uri (bsky : Bsky) (handle rkey : string)
    : result string :=
  did <- resolve_handle bsky handle ;;
  Ok ("at://" ++ did ++ "/app.bsky.feed.post/" ++ rkey)%string.

(** [fetch_post] *)
Definition fetch_post (bsky : Bsky) (post_uri : string) : result PostData :=
  match split "/"%char (replace "at://" "" post_uri) with
  | repo :: collection :: rkey :: _ =>
      post_record <- get_record bsky repo collection rkey ;;
      profile <- get_profile bsky repo ;;
      Ok {| pd_uri := post_uri;
            pd_cid := record_cid post_record;
            pd_author_handle := handle profile;
            pd_author_display_name :=
              match display_name profile with
              | Some n => if truthy_str n then n else handle profile
              | None => handle profile
              end;
            pd_text := record_text post_record |}
  | _ => Raise IndexError
  end.

(** The dict [reply_to_post] returns. *)
Record ReplyResult : Type := {
  res_success : bool;
  res_reply_url : string;
  res_reply_text : string
}.

Section Flow.
Context {J : JsonLib}.

(** The loop that extracts the reply text: it reads the whole stream. *)
Fixpoint collect_reply (stream : list StreamItem) (reply_text : string)
    : result string :=
  match stream with
  | [] => Ok reply_text
  | Fault e :: _ => Raise e
  | Yield chunk :: rest =>
      collect_reply rest
        (if has_type chunk "assistant_message"
         then match content chunk with
              | Some c => (reply_text ++ c)%string
              | None => reply_text
              end
         else reply_text)
  end.

Definition reply_record (post_data : PostData) (reply_text now_utc : string)
    : PostRecord :=
  {| type_ := "app.bsky.feed.post";
     rec_text := reply_text;
     reply := {| root := {| uri := pd_uri post_data;
                            cid := pd_cid post_data |};
                 parent := {| uri := pd_uri post_data;
                              cid := pd_cid post_data |} |};
     createdAt := replace "+00:00" "Z" now_utc |}.

(** [reply_to_post], after the two configurations are read.
    [now_utc] is [datetime.now(timezone.utc).isoformat()] and [stream]
    the agent's answer to the prompt. *)
Definition reply_to_post (cfg : Config) (bsky : Bsky)
    (stream : list StreamItem) (now_utc : string) (post_url : string)
    (w : World) : result ReplyResult * World :=
  match
    (_ <- login bsky (username cfg) (password cfg) ;;
     groups <- parse_post_url post_url ;;
     post_uri <- get_post_uri bsky (fst groups) (snd groups) ;;
     post_data <- fetch_post bsky post_uri ;;
     collected <- collect_reply stream "" ;;
     let reply_text := strip collected in
     if negb (truthy_str reply_text)
     then Raise (ValueError "Agent did not generate reply")
     else Ok (post_data, reply_text))
  with
  | Raise e => (Raise e, w)
  | Ok (post_data, reply_text) =>
      let request :=
        {| repo := me_did bsky;
           collection := "app.bsky.feed.post";
           record := reply_record post_data reply_text now_utc |} in
      let w' := issue_create_record request w in
      match create_record bsky request with
      | Raise e => (Raise e, w')
      | Ok response_uri =>
          let reply_url :=
            ("https://bsky.app/profile/" ++ username cfg ++ "/post/"
             ++ last_item (split "/"%char response_uri))%string in
          (Ok {| res_success := true;
                 res_reply_url := reply_url;
                 res_reply_text := reply_text |}, w')
      end
  end.

End Flow.
End Reply.

(* ================================================================== *)
(** * Concrete streams, topics and services *)
(* ================================================================== *)

Module Scenario.
Import Letta.

(** The runs below use [json_tree] as the library. *)
Definition world0 : @World json_tree :=
  {| post_log := []; research_log := []; topics_file := None;
     created := [] |}.

Definition plain (repr : string) : @Chunk json_tree :=
  {| message_type := None; tool_call := None; function_call := None;
     content := None; text := None; message := None; str := repr |}.

Definition assistant (s : string) : @Chunk json_tree :=
  {| message_type := Some "assistant_message"; tool_call := None;
     function_call := None; content := Some s; text := None;
     message := None; str := s |}.

(** A call of the publishing tool with the arguments [args]. *)
Definition publish_with (args : json) : @Chunk json_tree :=
  {| message_type := Some "tool_call_message";
     tool_call :=
       Some (@Build_ToolCall json_tree "create_new_bluesky_post" args);
     function_call := None; content := None; text := None;
     message := None; str := "tool_call_message" |}.

(** The call with a list of texts as its [text] argument. *)
Definition publish (texts : list string) : @Chunk json_tree :=
  publish_with (JDict [("text", JList (map JStr texts))]).

Definition done : @Chunk json_tree := plain "done".

Definition posting_stream : list (@StreamItem json_tree) :=
  [Yield (assistant "Drafting.");
   Yield (publish ["Primes are the atoms of arithmetic."]);
   Yield (assistant "Posted.");
   Yield done].

Definition empty_text_stream : list (@StreamItem json_tree) :=
  [Yield (assistant "hello"); Yield (publish [""]); Yield done].

Definition chat_stream : list (@StreamItem json_tree) :=
  [Yield (assistant "I would post"); Yield (assistant "this thought.");
   Yield done].

Definition broken_stream : list (@StreamItem json_tree) :=
  [Yield (assistant "partial"); Fault (ServiceError "connection reset")].

(** The three topics of the specification's example, and a topic
    researched before 1970. *)
Definition topic_A : Research.Topic :=
  {| Research.id := "a"; Research.title := "A"; Research.description := "";
     Research.priority := "high"; Research.last_researched := None |}.

Definition topic_B : Research.Topic :=
  {| Research.id := "b"; Research.title := "B"; Research.description := "";
     Research.priority := "high";
     Research.last_researched := Some "2026-11-03T09:30:00.000000" |}.

Definition topic_C : Research.Topic :=
  {| Research.id := "c"; Research.title := "C"; Research.description := "";
     Research.priority := "low"; Research.last_researched := None |}.

Definition topic_B_old : Research.Topic :=
  {| Research.id := "b"; Research.title := "B"; Research.description := "";
     Research.priority := "high";
     Research.last_researched := Some "1969-07-20T20:17:40" |}.

Definition topic_urgent : Research.Topic :=
  {| Research.id := "u"; Research.title := "U"; Research.description := "";
     Research.priority := "urgent"; Research.last_researched := None |}.


Definition example_url : string :=
  "https://bsky.app/profile/alice.example/post/xyz123".

Definition liked_by_url : string :=
  "https://bsky.app/profile/alice.example/post/xyz123/liked-by".

Definition demo_config : Reply.Config :=
  {| Reply.username := "gauge.example"; Reply.password := "app-password";
     Reply.pds_uri := "https://bsky.social" |}.

(** A repository service that knows alice.example and one post of that
    account. *)
Definition demo_bsky : Reply.Bsky :=
  {| Reply.login := fun _ _ => Ok tt;
     Reply.resolve_handle := fun h =>
       if h =? "alice.example" then Ok "did:plc:alice"
       else Raise (ServiceError "Unable to resolve handle");
     Reply.get_record := fun repo collection rkey =>
       if (repo =? "did:plc:alice") && (collection =? "app.bsky.feed.post")
          && (rkey =? "xyz123")
       then Ok {| Reply.record_cid := "bafyalice";
                  Reply.record_text := "hello world" |}
       else Raise (ServiceError "Could not locate record");
     Reply.get_profile := fun _ =>
       Ok {| Reply.handle := "alice.example";
             Reply.display_name := Some "Alice" |};
     Reply.create_record := fun _ =>
       Ok "at://did:plc:gauge/app.bsky.feed.post/3kreply";
     Reply.me_did := "did:plc:gauge" |}.

Definition reply_stream : list (@StreamItem json_tree) :=
  [Yield (assistant "  hello back :)  "); Yield done].

Definition blank_stream : list (@StreamItem json_tree) :=
  [Yield (assistant "   "); Yield done].

Definition now_utc : string := "2026-11-04T12:00:00.000000+00:00".

End Scenario.

(* ================================================================== *)
(** * autonomous_poster.py: [main] *)
(* ================================================================== *)

Module PosterCli.
Import Letta Poster.

(** What [main] prints or logs before it exits. *)
Inductive Printed : Type :=
| ConfigError (e : exn)         (* logger.error("Error loading config: ...") *)
| PostedLine (content : json)   (* print("✓ Posted: ...") *)
| FailedLine                    (* print("✗ Failed to post", file=sys.stderr) *)
| ErrorLine (e : exn).          (* print("Error: ...", file=sys.stderr) *)

Section Main.
Context {J : JsonLib}.

(** [main], after the arguments are parsed: the exit status, what was
    printed, and the files.  [config] is what [get_letta_config] and the
    two subscripts of its result give. *)
Definition main (config : result (string * string)) (topic_prompt now : string)
    (stream : list StreamItem) (dry_run : bool) (w : World)
    : nat * list Printed * World :=
  match config with
  | Raise e => (1, [ConfigError e], w)
  | Ok _ =>
      match generate_autonomous_post topic_prompt now stream dry_run w with
      | (Ok result, w') =>
          if res_success result
          then (0, [PostedLine (res_content result)], w')
          else (1, [FailedLine], w')
      | (Raise e, w') => (1, [ErrorLine e], w')
      end
  end.

End Main.
End PosterCli.

(* ================================================================== *)
(** * autonomous_research.py: [list_topics] *)
(* ================================================================== *)

Module ResearchCli.
Import Letta Research.

Definition upper_char (c : ascii) : ascii :=
  let n := nat_of_ascii c in
  if ((97 <=? n) && (n <=? 122))%nat then ascii_of_nat (n - 32) else c.

(** [s.upper()] on ASCII text. *)
Definition upper (s : string) : string := map_chars upper_char s.

(** [str(i)] for a natural number. *)
Definition str_of_nat (i : nat) : string :=
  NilZero.string_of_uint (Nat.to_uint i).

(** [l[-5:]] *)
Definition last_five {A} (l : list A) : list A :=
  skipn (List.length l - 5) l.

(** The lines printed for the topic numbered [i]; the last one is the
    empty [print()]. *)
Definition active_lines (i : nat) (topic : Topic) : list string :=
  [(str_of_nat i ++ ". [" ++ upper (priority topic) ++ "] "
    ++ title topic)%string]
  ++ (if truthy_str (description topic)
      then [("   " ++ description topic)%string] else [])
  ++ (match last_researched topic with
      | Some s =>
          if truthy_str s then [("   Last researched: " ++ s)%string] else []
      | None => []
      end)
  ++ [""].

(** [for i, topic in enumerate(topics['active'], 1)] *)
Fixpoint active_section (i : nat) (act : list Topic) : list string :=
  match act with
  | [] => []
  | topic :: rest => active_lines i topic ++ active_section (S i) rest
  end.

Definition completed_section (done : list Topic) : list string :=
  match done with
  | [] => []
  | _ :: _ =>
      (String "010"%char "=== COMPLETED TOPICS ===" ++ String "010"%char "")%string
      :: map (fun topic => ("✓ " ++ title topic)%string) (last_five done)
  end.

(** What [list_topics] prints for a queue, one string for each [print]. *)
Definition listing (topics : Topics) : list string :=
  (String "010"%char "=== ACTIVE RESEARCH TOPICS ===" ++ String "010"%char "")%string
  :: active_section 1 (active topics) ++ completed_section (completed topics).

Section Main.
Context {J : JsonLib}.

(** [list_topics] *)
Definition list_topics (w : World) : result (list string) * World :=
  match load_topics w with
  | (Raise e, w1) => (Raise e, w1)
  | (Ok topics, w1) => (Ok (listing topics), w1)
  end.

End Main.
End ResearchCli.

(* ================================================================== *)
(** * invoke_gauge.py *)
(* ================================================================== *)

Module Invoke.
Import Letta.

Section Flow.
Context {J : JsonLib}.

(** The dict [invoke_agent] returns. *)
Record Response : Type := {
  messages : list Chunk;
  tool_calls : list Chunk;
  reasoning : list Chunk
}.

Definition nothing_collected : Response :=
  {| messages := []; tool_calls := []; reasoning := [] |}.

Definition on_chunk (chunk : Chunk) (st : Response) : Response :=
  match message_type chunk with
  | Some mt =>
      if mt =? "reasoning_message" then
        {| messages := messages st; tool_calls := tool_calls st;
           reasoning := reasoning st ++ [chunk] |}
      else if mt =? "function_call_message" then
        {| messages := messages st; tool_calls := tool_calls st ++ [chunk];
           reasoning := reasoning st |}
      else if (mt =? "assistant_message") || (mt =? "function_return") then
        {| messages := messages st ++ [chunk]; tool_calls := tool_calls st;
           reasoning := reasoning st |}
      else st
  | None => st
  end.

Fixpoint collect (stream : list StreamItem) (st : Response) : result Response :=
  match stream with
  | [] => Ok st
  | Fault e :: _ => Raise e
  | Yield chunk :: rest =>
      let st' := on_chunk chunk st in
      if str chunk =? "done" then Ok st' else collect rest st'
  end.

(** [invoke_agent], from the [try] on: what is raised is logged by the
    process logger and raised again. *)
Definition invoke_agent (stream : list StreamItem) : result Response :=
  collect stream nothing_collected.

(** The text one message gives to [text_parts], if any. *)
Definition text_part (msg : Chunk) : option string :=
  if has_type msg "assistant_message" then
    match text msg with
    | Some t => Some t
    | None => content msg
    end
  else None.

Fixpoint text_parts (msgs : list Chunk) : list string :=
  match msgs with
  | [] => []
  | msg :: rest =>
      match text_part msg with
      | Some t => t :: text_parts rest
      | None => text_parts rest
      end
  end.

(** [extract_text_response]; [msgs] is [response.get('messages')]. *)
Definition extract_text_response (msgs : option (list Chunk)) : string :=
  String.concat (String "010"%char "")
    (text_parts (match msgs with Some l => l | None => [] end)).

End Flow.
End Invoke.

(* ================================================================== *)
(** * reply_to_post.py: the script's entry *)
(* ================================================================== *)

Module ReplyCli.
Import Letta Reply.

Inductive Printed : Type :=
| Usage                         (* print(__doc__) *)
| Success (reply_text reply_url : string)
| Failed                        (* the branch for a result without success *)
| ErrorLine (e : exn).

Section Main.
Context {J : JsonLib}.

(** The block under [if __name__ == '__main__'], with the exit status.
    [args] is [sys.argv[1:]]; [configs] is what the two configuration
    readers at the start of [reply_to_post] give. *)
Definition main (args : list string) (configs : result Config) (bsky : Bsky)
    (stream : list StreamItem) (now_utc : string) (w : World)
    : nat * list Printed * World :=
  match args with
  | [] => (1, [Usage], w)
  | post_url :: _ =>
      match configs with
      | Raise e => (1, [ErrorLine e], w)
      | Ok cfg =>
          match reply_to_post cfg bsky stream now_utc post_url w with
          | (Ok result, w') =>
              if res_success result
              then (0, [Success (res_reply_text result) (res_reply_url result)], w')
              else (1, [Failed], w')
          | (Raise e, w') => (1, [ErrorLine e], w')
          end
      end
  end.

End Main.
End ReplyCli.

(* ================================================================== *)
(** * More vocabulary of the statements *)
(* ================================================================== *)

Module Terms.
Import Letta.

Section Chunks.
Context {J : JsonLib}.

(** The chunk calls the publishing tool. *)
Definition is_publish (c : Chunk) : bool :=
  match Poster.publish_call c with
  | Some _ => true
  | None => false
  end.

(** The name [conduct_research] reads in a chunk, when the chunk is a
    function call that carries its call. *)
Definition call_name (c : Chunk) : option string :=
  if has_type c "function_call_message" then
    match function_call c with
    | Some (Some n) => Some n
    | Some None => Some ""
    | None => None
    end
  else None.

Definition calls_named (n : string) (cs : list Chunk) : list Chunk :=
  filter (fun c => match call_name c with
                   | Some n' => n' =? n
                   | None => false
                   end) cs.

Definition function_call_messages (cs : list Chunk) : list Chunk :=
  filter (fun c => has_type c "function_call_message") cs.

Definition chunks_of_type (t : string) (cs : list Chunk) : list Chunk :=
  filter (fun c => has_type c t) cs.

(** The chunks of a stream that the transport never interrupts. *)
Fixpoint chunks_of (stream : list StreamItem) : option (list Chunk) :=
  match stream with
  | [] => Some []
  | Fault _ :: _ => None
  | Yield c :: rest =>
      match chunks_of rest with
      | Some cs => Some (c :: cs)
      | None => None
      end
  end.

(** What the research loop adds to its findings, in order: the [text] of
    each assistant message that has one, with a line feed. *)
Definition research_texts (cs : list Chunk) : list string :=
  flat_map (fun c => if has_type c "assistant_message"
                     then match text c with
                          | Some t => [(t ++ String "010"%char "")%string]
                          | None => []
                          end
                     else []) cs.

(** The texts [extract_text_response] joins, read off the chunks: of each
    assistant message its [text] or, failing that, its [content]. *)
Definition response_texts (cs : list Chunk) : list string :=
  flat_map (fun c => if has_type c "assistant_message"
                     then match text c with
                          | Some t => [t]
                          | None => match content c with
                                    | Some s => [s]
                                    | None => []
                                    end
                          end
                     else []) cs.

(** The chunks [invoke_agent] keeps as messages. *)
Definition kept_messages (cs : list Chunk) : list Chunk :=
  filter (fun c => has_type c "assistant_message"
                   || has_type c "function_return") cs.

(** The contents the reply loop appends, in order. *)
Definition reply_parts (cs : list Chunk) : list string :=
  flat_map (fun c => if has_type c "assistant_message"
                     then match content c with
                          | Some s => [s]
                          | None => []
                          end
                     else []) cs.

End Chunks.

(** The topic with [last_researched] set. *)
Definition stamp (t : Research.Topic) (ts : string) : Research.Topic :=
  {| Research.id := Research.id t;
     Research.title := Research.title t;
     Research.description := Research.description t;
     Research.priority := Research.priority t;
     Research.last_researched := Some ts |}.

(** [old] starts at no position of [s]. *)
Definition nowhere (old s : string) : Prop :=
  forall a b, s = (a ++ b)%string -> prefix old b = false.

(** No slash of the string is followed by a slash. *)
Fixpoint single_slashes (s : string) : bool :=
  match s with
  | EmptyString => true
  | String c s' =>
      match s' with
      | EmptyString => true
      | String c' _ =>
          negb (Ascii.eqb c "/"%char && Ascii.eqb c' "/"%char)
          && single_slashes s'
      end
  end.

(** No character of the string satisfies [p]. *)
Fixpoint free_of (p : ascii -> bool) (s : string) : bool :=
  match s with
  | EmptyString => true
  | String c s' => negb (p c) && free_of p s'
  end.



Definition is_plus (c : ascii) : bool := Ascii.eqb c "+"%char.

(** [a] is not after [b] in the order of the keys. *)
Definition le_by {A : Type} (key : A -> nat * string) (a b : A) : Prop :=
  Research.key_le (key a) (key b) = true.

(** The sort keys of a list are in non-decreasing order. *)
Definition key_sorted (l : list Research.Topic) : Prop :=
  StronglySorted (le_by Research.sort_key) l.

End Terms.

(* ================================================================== *)
(** * More concrete streams, topics and worlds *)
(* ================================================================== *)

Module Cases.
Import Letta Scenario.

(** An assistant message that carries a [text] and no [content]. *)
Definition texted (s : string) : @Chunk json_tree :=
  {| message_type := Some "assistant_message"; tool_call := None;
     function_call := None; content := None; text := Some s;
     message := None; str := s |}.

(** A function call message for the tool [n]. *)
Definition call (n : string) : @Chunk json_tree :=
  {| message_type := Some "function_call_message"; tool_call := None;
     function_call := Some (Some n); content := None; text := None;
     message := None; str := "function_call_message" |}.

Definition reasoned (s : string) : @Chunk json_tree :=
  {| message_type := Some "reasoning_message"; tool_call := None;
     function_call := None; content := None; text := Some s;
     message := None; str := s |}.

Definition research_stream : list (@StreamItem json_tree) :=
  [Yield (call "web_search"); Yield (texted "Two papers found.");
   Yield (call "web_search"); Yield (call "archival_memory_insert");
   Yield (texted "Stored."); Yield done].

(** A stream that goes on after 'done'. *)
Definition late_stream : list (@StreamItem json_tree) :=
  [Yield (assistant "early "); Yield done; Yield (assistant "late")].

(** A publishing call followed by a fault of the transport. *)
Definition posted_then_broken : list (@StreamItem json_tree) :=
  [Yield (publish ["Posted before the fault."]);
   Fault (ServiceError "connection reset")].

(** A second high-priority topic, never researched. *)
Definition topic_D : Research.Topic :=
  {| Research.id := "d"; Research.title := "D"; Research.description := "";
     Research.priority := "high"; Research.last_researched := None |}.

(** The world after the first load of a fresh deployment. *)
Definition seeded_world : @World json_tree :=
  snd (Research.load_topics world0).

End Cases.

(* ================================================================== *)
(** * Facts about strings *)
(* ================================================================== *)

Module StringFacts.

Lemma append_empty_r (s : string) : (s ++ "")%string = s.
Proof. induction s; simpl; congruence. Qed.

Lemma append_assoc (a b c : string) :
  ((a ++ b) ++ c)%string = (a ++ b ++ c)%string.
Proof. induction a; simpl; congruence. Qed.

Lemma concat_empty_cons (x : string) xs :
  String.concat "" (x :: xs) = (x ++ String.concat "" xs)%string.
Proof.
  destruct xs; simpl; [now rewrite append_empty_r|reflexivity].
Qed.

Lemma truthy_str_false (s : string) : truthy_str s = false <-> s = "".
Proof.
  unfold truthy_str. rewrite negb_false_iff. apply String.eqb_eq.
Qed.

Lemma eqb_empty_false (s : string) : s <> "" -> (s =? "") = false.
Proof. intros H. now apply String.eqb_neq. Qed.



End StringFacts.

(* ================================================================== *)
(** * The stream aggregator of the poster *)
(* ================================================================== *)

Module PosterProofs.
Import Letta Poster StringFacts.

Section Facts.
Context {J : JsonLib}.

Lemma collect_run (stream : list StreamItem) :
  forall cs st, chunks_read stream = Ok cs -> collect stream st = run cs st.
Proof.
  induction stream as [|[c|e] rest IH]; intros cs st H; simpl in H.
  - injection H as <-. reflexivity.
  - simpl. destruct (str c =? "done") eqn:D.
    + injection H as <-. simpl. destruct (on_chunk c st); reflexivity.
    + destruct (chunks_read rest) as [cs'|e] eqn:R; simpl in H; [|discriminate].
      injection H as <-. simpl.
      destruct (on_chunk c st) as [st'|e]; simpl; [|reflexivity].
      now apply IH.
  - discriminate.
Qed.

Lemma run_app (a b : list Chunk) :
  forall st, run (a ++ b) st = (st' <- run a st ;; run b st').
Proof.
  induction a as [|c a IH]; intro st; simpl; [reflexivity|].
  destruct (on_chunk c st) as [st'|e]; simpl; [apply IH|reflexivity].
Qed.

(** What the body does with a chunk, by kind. *)
Lemma on_chunk_publish c tc st :
  publish_call c = Some tc ->
  on_chunk c st =
    (pc <- first_text tc ;;
     Ok {| all_messages := all_messages st;
           tool_calls := tool_calls st ++ [c];
           posted := true;
           post_content := pc |}).
Proof.
  unfold publish_call, has_type, on_chunk, first_text.
  destruct (message_type c) as [mt|]; [|discriminate].
  destruct (mt =? "tool_call_message"); [|discriminate].
  destruct (tool_call c) as [tc'|]; [|discriminate].
  destruct (name tc' =? "create_new_bluesky_post"); [|discriminate].
  intros [= ->]. simpl.
  destruct (loads_arguments tc); simpl; [|reflexivity].
  destruct (args_text a); reflexivity.
Qed.

Lemma on_chunk_other c st :
  publish_call c = None ->
  on_chunk c st =
    Ok {| all_messages := all_messages st ++ assistant_messages [c];
          tool_calls := tool_calls st ++ tool_call_messages [c];
          posted := posted st;
          post_content := post_content st |}.
Proof.
  unfold publish_call, has_type, on_chunk, assistant_messages,
    tool_call_messages, has_type; simpl.
  destruct st as [am tcs p pc]; simpl.
  destruct (message_type c) as [mt|]; simpl.
  - destruct (mt =? "tool_call_message") eqn:T.
    + apply String.eqb_eq in T; subst mt; simpl.
      rewrite app_nil_r.
      destruct (tool_call c) as [tc|]; [|reflexivity].
      destruct (name tc =? "create_new_bluesky_post"); [discriminate|reflexivity].
    + intros _. destruct (mt =? "assistant_message"); simpl;
        rewrite ?app_nil_r; reflexivity.
  - intros _. rewrite !app_nil_r. reflexivity.
Qed.

Lemma publish_call_kind c tc :
  publish_call c = Some tc ->
  assistant_messages [c] = [] /\ tool_call_messages [c] = [c].
Proof.
  unfold publish_call, assistant_messages, tool_call_messages, has_type.
  simpl. destruct (message_type c) as [mt|]; [|discriminate].
  destruct (mt =? "tool_call_message") eqn:T; [|discriminate].
  apply String.eqb_eq in T; subst mt. intros _. split; reflexivity.
Qed.

Lemma assistant_messages_cons (c : Chunk) cs :
  assistant_messages (c :: cs) = assistant_messages [c] ++ assistant_messages cs.
Proof.
  unfold assistant_messages; simpl.
  destruct (has_type c "assistant_message"); reflexivity.
Qed.

Lemma tool_call_messages_cons (c : Chunk) cs :
  tool_call_messages (c :: cs) = tool_call_messages [c] ++ tool_call_messages cs.
Proof.
  unfold tool_call_messages; simpl.
  destruct (has_type c "tool_call_message"); reflexivity.
Qed.

Lemma run_no_publish (cs : list Chunk) :
  forall st,
    (forall c, In c cs -> publish_call c = None) ->
    run cs st =
      Ok {| all_messages := all_messages st ++ assistant_messages cs;
            tool_calls := tool_calls st ++ tool_call_messages cs;
            posted := posted st;
            post_content := post_content st |}.
Proof.
  induction cs as [|c cs IH]; intros st H.
  - cbn. rewrite !app_nil_r. destruct st; reflexivity.
  - rewrite (assistant_messages_cons c cs), (tool_call_messages_cons c cs).
    cbn [run]. rewrite on_chunk_other by (apply H; now left).
    cbn [bind]. rewrite IH by (intros; apply H; now right).
    cbn [all_messages tool_calls posted post_content].
    rewrite !app_assoc. reflexivity.
Qed.

Lemma run_decodable (cs : list Chunk) :
  forall st,
    (forall c tc, In c cs -> publish_call c = Some tc ->
                  is_ok (first_text tc) = true) ->
    exists st',
      run cs st = Ok st'
      /\ all_messages st' = all_messages st ++ assistant_messages cs
      /\ tool_calls st' = tool_calls st ++ tool_call_messages cs.
Proof.
  induction cs as [|c cs IH]; intros st H.
  - exists st. cbn. rewrite !app_nil_r. auto.
  - cbn [run].
    rewrite (assistant_messages_cons c cs), (tool_call_messages_cons c cs).
    destruct (publish_call c) as [tc|] eqn:P.
    + rewrite (on_chunk_publish c tc st P).
      pose proof (H c tc (or_introl eq_refl) P) as D.
      destruct (first_text tc) as [pc|e]; [|discriminate]. cbn [bind].
      destruct (publish_call_kind c tc P) as [-> ->].
      edestruct IH as (st' & R & A & T);
        [intros; eapply H; [right|]; eassumption|].
      exists st'. rewrite R, A, T. cbn [all_messages tool_calls].
      rewrite <- !app_assoc. auto.
    + rewrite (on_chunk_other c st P). cbn [bind].
      edestruct IH as (st' & R & A & T);
        [intros; eapply H; [right|]; eassumption|].
      exists st'. rewrite R, A, T. cbn [all_messages tool_calls].
      rewrite <- !app_assoc. auto.
Qed.

Lemma response_text_concat (msgs : list Chunk) :
  response_text_of msgs = String.concat "" (map message_text msgs).
Proof.
  unfold response_text_of.
  enough (G : forall acc,
             fold_left (fun a m => (a ++ message_text m)%string) msgs acc
             = (acc ++ String.concat "" (map message_text msgs))%string)
    by apply G.
  induction msgs as [|m msgs IH]; intro acc.
  - cbn. now rewrite append_empty_r.
  - cbn [fold_left map]. rewrite IH, concat_empty_cons, append_assoc.
    reflexivity.
Qed.

Lemma assistant_messages_app (a b : list Chunk) :
  assistant_messages (a ++ b) = assistant_messages a ++ assistant_messages b.
Proof. apply filter_app. Qed.

Lemma generate_result t n stream dry_run (w : World) :
  fst (generate_autonomous_post t n stream dry_run w) = attempt stream dry_run.
Proof.
  unfold generate_autonomous_post.
  destruct (attempt stream dry_run); reflexivity.
Qed.

Lemma truthy_JStr s : truthy (JStr s) = negb (s =? "").
Proof. reflexivity. Qed.

(** C1 (as amended).  When the chunks read hold a call of the
    publishing tool, every earlier such call decodes, and the last one
    carries a string as its first text, the outcome is returned with
    [posted] and [success] true; its content is that string when it is
    not empty, whatever assistant text was collected before or after
    the call, and the trimmed assistant text when it is empty. *)
Theorem publish_call_decides_content
    (topic_prompt now : string) (stream : list StreamItem)
    (dry_run : bool) (w : World)
    (cs before after : list Chunk) (c : Chunk) (tc : ToolCall) (s : string) :
  chunks_read stream = Ok cs ->
  cs = before ++ c :: after ->
  (forall c' tc', In c' before -> publish_call c' = Some tc' ->
                  is_ok (first_text tc') = true) ->
  publish_call c = Some tc ->
  first_text tc = Ok (JStr s) ->
  (forall c', In c' after -> publish_call c' = None) ->
  exists r,
    fst (generate_autonomous_post topic_prompt now stream dry_run w) = Ok r
    /\ res_posted r = true
    /\ res_success r = true
    /\ res_content r =
         (if s =? "" then JStr (strip (raw_text cs)) else JStr s).
Proof.
  intros R -> Hb P F Ha.
  rewrite generate_result. unfold attempt.
  rewrite (collect_run stream _ _ R), run_app.
  destruct (run_decodable before nothing_collected Hb) as (st1 & R1 & A1 & _).
  rewrite R1. cbn [bind run].
  rewrite (on_chunk_publish c tc st1 P), F. cbn [bind].
  rewrite run_no_publish by exact Ha.
  cbn [bind all_messages tool_calls posted post_content getslice_to].
  eexists; split; [reflexivity|].
  cbn [res_posted res_success res_content orb].
  repeat split.
  rewrite truthy_JStr. destruct (s =? ""); cbn [negb]; [|reflexivity].
  rewrite response_text_concat. unfold raw_text.
  rewrite A1, assistant_messages_app, (assistant_messages_cons c after).
  destruct (publish_call_kind c tc P) as [-> _].
  reflexivity.
Qed.

(** C2.  Every outcome returned has [success = posted or dry_run].
    When no chunk read calls the publishing tool, an outcome is
    returned with [posted] false, [success] equal to [dry_run] (false
    without the dry run, true with it), and for content the assistant
    texts in arrival order, each followed by the separator, the whole
    trimmed. *)
Theorem success_and_fallback_content
    (topic_prompt now : string) (stream : list StreamItem)
    (dry_run : bool) (w : World) :
  (forall r,
      fst (generate_autonomous_post topic_prompt now stream dry_run w) = Ok r ->
      res_success r = res_posted r || dry_run)
  /\
  (forall cs,
      chunks_read stream = Ok cs ->
      (forall c, In c cs -> publish_call c = None) ->
      exists r,
        fst (generate_autonomous_post topic_prompt now stream dry_run w) = Ok r
        /\ res_posted r = false
        /\ res_success r = dry_run
        /\ res_content r = JStr (strip (raw_text cs))
        /\ res_response r = strip (raw_text cs)).
Proof.
  rewrite generate_result. split.
  - intros r. unfold attempt.
    destruct (collect stream nothing_collected) as [st|e]; [|discriminate].
    cbn [bind].
    destruct (if posted st then _ else _); [|discriminate].
    cbn [bind]. intros [= <-]. reflexivity.
  - intros cs R H. unfold attempt.
    rewrite (collect_run stream _ _ R), run_no_publish by exact H.
    cbn [bind all_messages tool_calls posted post_content nothing_collected
         truthy app].
    exists {| res_success := dry_run;
              res_posted := false;
              res_content := JStr (strip (raw_text cs));
              res_response := strip (raw_text cs);
              res_tool_calls := List.length (tool_call_messages cs) |}.
    rewrite response_text_concat. fold (raw_text cs).
    split; [destruct dry_run; reflexivity|repeat split].
Qed.

End Facts.
End PosterProofs.

(* ================================================================== *)
(** * The order of the sort keys *)
(* ================================================================== *)

Module OrderFacts.
Import Research.

Lemma ascii_compare_refl (a : ascii) : Ascii.compare a a = Eq.
Proof. unfold Ascii.compare. apply N.compare_refl. Qed.

Lemma string_compare_refl (s : string) : String.compare s s = Eq.
Proof.
  induction s as [|a s IH]; simpl; [reflexivity|].
  now rewrite ascii_compare_refl.
Qed.

Lemma string_compare_lt_trans (a : string) :
  forall b c,
    String.compare a b = Lt -> String.compare b c = Lt ->
    String.compare a c = Lt.
Proof.
  induction a as [|x a IH]; intros [|y b] [|z c]; simpl;
    try discriminate; try reflexivity.
  unfold Ascii.compare.
  destruct (N.compare_spec (N_of_ascii x) (N_of_ascii y)) as [E1|L1|G1];
    try discriminate;
    destruct (N.compare_spec (N_of_ascii y) (N_of_ascii z)) as [E2|L2|G2];
    try discriminate; intros H1 H2.
  - rewrite E1, E2, N.compare_refl. eauto.
  - rewrite E1. now apply N.compare_lt_iff in L2 as ->.
  - rewrite <- E2. now apply N.compare_lt_iff in L1 as ->.
  - assert (L : (N_of_ascii x < N_of_ascii z)%N) by lia.
    now apply N.compare_lt_iff in L as ->.
Qed.

Lemma str_ltb_irrefl (s : string) : (s <? s)%string = false.
Proof. unfold String.ltb. now rewrite string_compare_refl. Qed.

Lemma str_ltb_trans (a b c : string) :
  (a <? b)%string = true -> (b <? c)%string = true -> (a <? c)%string = true.
Proof.
  unfold String.ltb.
  destruct (String.compare a b) eqn:E1; try discriminate.
  destruct (String.compare b c) eqn:E2; try discriminate.
  now rewrite (string_compare_lt_trans a b c E1 E2).
Qed.

(** Two strings are equal or one is below the other. *)
Lemma str_trichotomy (a b : string) :
  (a <? b)%string = true \/ a = b \/ (b <? a)%string = true.
Proof.
  unfold String.ltb. rewrite (String.compare_antisym b a).
  destruct (String.compare a b) eqn:E; simpl; auto.
  right; left. now apply String.compare_eq_iff.
Qed.

Lemma key_lt_irrefl (a : nat * string) : key_lt a a = false.
Proof.
  unfold key_lt. rewrite Nat.ltb_irrefl, str_ltb_irrefl.
  now rewrite andb_false_r.
Qed.

Lemma key_lt_spec (a b : nat * string) :
  key_lt a b = true <->
  fst a < fst b \/ (fst a = fst b /\ (snd a <? snd b)%string = true).
Proof.
  unfold key_lt.
  rewrite orb_true_iff, andb_true_iff, Nat.ltb_lt, Nat.eqb_eq. reflexivity.
Qed.

Lemma key_lt_trans (a b c : nat * string) :
  key_lt a b = true -> key_lt b c = true -> key_lt a c = true.
Proof.
  rewrite !key_lt_spec. intros [H1|[E1 S1]] [H2|[E2 S2]].
  - left; lia.
  - left; lia.
  - left; lia.
  - right; split; [congruence|]. eapply str_ltb_trans; eassumption.
Qed.

Lemma key_lt_asym (a b : nat * string) :
  key_lt a b = true -> key_lt b a = false.
Proof.
  intros H. destruct (key_lt b a) eqn:E; [|reflexivity].
  pose proof (key_lt_trans a b a H E) as T.
  now rewrite key_lt_irrefl in T.
Qed.

(** The keys form a total order: two keys are equal or comparable. *)
Lemma key_trichotomy (a b : nat * string) :
  key_lt a b = true \/ a = b \/ key_lt b a = true.
Proof.
  destruct a as [m s], b as [n t]. rewrite !key_lt_spec. simpl.
  destruct (Nat.lt_trichotomy m n) as [L|[E|G]]; auto.
  subst n. destruct (str_trichotomy s t) as [L|[E|G]]; auto.
  subst t; auto.
Qed.

(** Below [c] means below [b] or [b] is below [c]. *)
Lemma key_lt_cotrans (a b c : nat * string) :
  key_lt a c = true -> key_lt a b = true \/ key_lt b c = true.
Proof.
  intros H. destruct (key_trichotomy a b) as [L|[E|G]]; auto.
  - subst b; auto.
  - right. eapply key_lt_trans; eassumption.
Qed.

Section SortedFacts.
Context {A : Type} (key : A -> nat * string).

Lemma hd_insert (x : A) (l : list A) :
  hd_error (insert key x l) =
    match hd_error l with
    | None => Some x
    | Some y => if key_lt (key y) (key x) then Some y else Some x
    end.
Proof.
  destruct l as [|y l]; simpl; [reflexivity|].
  destruct (key_lt (key y) (key x)); reflexivity.
Qed.

Lemma insert_not_nil (x : A) (l : list A) : insert key x l <> [].
Proof.
  destruct l as [|y l]; simpl; [discriminate|].
  destruct (key_lt (key y) (key x)); discriminate.
Qed.

Lemma sorted_nil_inv (l : list A) : sorted key l = [] -> l = [].
Proof.
  destruct l as [|x l]; simpl; [reflexivity|].
  intros H. now apply insert_not_nil in H.
Qed.

(** The head of the sorted list is the first element of the list among
    those of least key. *)
Lemma hd_sorted_first_least (l : list A) :
  forall t,
    hd_error (sorted key l) = Some t ->
    exists l1 l2,
      l = l1 ++ t :: l2
      /\ (forall u, In u l1 -> key_lt (key t) (key u) = true)
      /\ (forall u, In u l2 -> key_lt (key u) (key t) = false).
Proof.
  induction l as [|x l IH]; intros t; simpl; [discriminate|].
  rewrite hd_insert.
  destruct (hd_error (sorted key l)) as [y|] eqn:Hd.
  - destruct (IH y eq_refl) as (l1 & l2 & -> & B & Aft).
    destruct (key_lt (key y) (key x)) eqn:L; intros [= <-].
    + exists (x :: l1), l2. split; [reflexivity|]. split; [|exact Aft].
      intros u [<-|Hu]; [exact L|now apply B].
    + exists [], (l1 ++ y :: l2). split; [reflexivity|].
      split; [intros u []|].
      intros u Hu. destruct (key_lt (key u) (key x)) eqn:U; [|reflexivity].
      exfalso.
      destruct (key_lt_cotrans _ (key y) _ U) as [C|C]; [|congruence].
      apply in_app_or in Hu as [Hu|[<-|Hu]].
      * apply B in Hu. apply key_lt_asym in Hu. congruence.
      * rewrite key_lt_irrefl in C. discriminate.
      * apply Aft in Hu. congruence.
  - intros [= <-]. exists [], l. split; [reflexivity|].
    destruct (sorted key l) eqn:S; [|discriminate].
    apply sorted_nil_inv in S as ->.
    split; intros u [].
Qed.

Lemma hd_sorted_some (l : list A) :
  l <> [] -> exists t, hd_error (sorted key l) = Some t.
Proof.
  destruct l as [|x l]; [congruence|]. intros _. simpl.
  rewrite hd_insert. destruct (hd_error (sorted key l)) as [y|]; eauto.
  destruct (key_lt (key y) (key x)); eauto.
Qed.

End SortedFacts.

Section SortedMap.
Context {A B : Type} (f : A -> B) (key : B -> nat * string).

Lemma insert_map (x : A) (l : list A) :
  map f (insert (fun a => key (f a)) x l) = insert key (f x) (map f l).
Proof.
  induction l as [|y l IH]; [reflexivity|]. cbn [insert map].
  destruct (key_lt (key (f y)) (key (f x))); cbn [map]; [now rewrite IH|reflexivity].
Qed.

Lemma sorted_map (l : list A) :
  map f (sorted (fun a => key (f a)) l) = sorted key (map f l).
Proof.
  induction l as [|x l IH]; [reflexivity|].
  cbn [sorted map]. now rewrite insert_map, IH.
Qed.
End SortedMap.

Section SortedIn.
Context {A : Type} (key : A -> nat * string).

Lemma in_insert (x y : A) (l : list A) :
  In y (insert key x l) <-> y = x \/ In y l.
Proof.
  induction l as [|z l IH]; cbn [insert].
  - simpl. intuition auto.
  - destruct (key_lt (key z) (key x)); simpl; rewrite ?IH; intuition auto.
Qed.

Lemma in_sorted (y : A) (l : list A) : In y (sorted key l) <-> In y l.
Proof.
  induction l as [|x l IH]; [reflexivity|].
  cbn [sorted]. rewrite in_insert, IH. simpl. intuition auto.
Qed.
End SortedIn.

End OrderFacts.

(* ================================================================== *)
(** * The topic queue and the scheduler *)
(* ================================================================== *)

Module ResearchProofs.
Import Research OrderFacts StringFacts Scenario.

Lemma select_next_hd (act : list Topic) :
  select_next act = hd_error (sorted_topics act).
Proof. destruct act; reflexivity. Qed.

(** Where the topic picked stands in the list. *)
Lemma select_next_first_least (act : list Topic) (t : Topic) :
  select_next act = Some t ->
  exists l1 l2,
    act = l1 ++ t :: l2
    /\ (forall u, In u l1 -> key_lt (sort_key t) (sort_key u) = true)
    /\ (forall u, In u l2 -> key_lt (sort_key u) (sort_key t) = false).
Proof.
  rewrite select_next_hd. apply hd_sorted_first_least.
Qed.

Lemma select_next_least (act : list Topic) (t : Topic) :
  select_next act = Some t ->
  In t act /\ forall u, In u act -> key_le (sort_key t) (sort_key u) = true.
Proof.
  intros H. destruct (select_next_first_least act t H) as (l1 & l2 & -> & B & Aft).
  split; [apply in_elt|].
  intros u Hu. unfold key_le. apply negb_true_iff.
  apply in_app_or in Hu as [Hu|[<-|Hu]].
  - apply key_lt_asym. now apply B.
  - apply key_lt_irrefl.
  - now apply Aft.
Qed.

Lemma sort_key_snd_after_epoch (act : list Topic) (u : Topic) :
  after_epoch act -> In u act ->
  match last_researched u with
  | Some s => snd (sort_key u) = s /\ ("1970-01-01" <? s)%string = true
  | None => snd (sort_key u) = "1970-01-01"
  end.
Proof.
  intros H Hu. unfold sort_key; simpl.
  destruct (last_researched u) as [s|] eqn:E; [|reflexivity].
  pose proof (H u s Hu E) as L. split; [|exact L].
  destruct s; [discriminate L|reflexivity].
Qed.

Lemma spec_before_key_lt (act : list Topic) (u t : Topic) :
  after_epoch act -> In u act -> In t act ->
  spec_before u t = true -> key_lt (sort_key u) (sort_key t) = true.
Proof.
  intros H Hu Ht. unfold spec_before, rank.
  rewrite key_lt_spec, orb_true_iff, andb_true_iff, Nat.ltb_lt, Nat.eqb_eq.
  intros [L|[E S]]; [now left|]. right; split; [exact E|].
  pose proof (sort_key_snd_after_epoch act u H Hu) as Ku.
  pose proof (sort_key_snd_after_epoch act t H Ht) as Kt.
  destruct (last_researched u) as [su|], (last_researched t) as [st|];
    simpl in S; try discriminate.
  - destruct Ku as [-> _], Kt as [-> _]. exact S.
  - destruct Kt as [-> Hlt]. now rewrite Ku.
Qed.

Lemma combine_seq_snd (l : list Topic) :
  forall n, map snd (combine (seq n (List.length l)) l) = l.
Proof.
  induction l as [|t l IH]; intros n; [reflexivity|].
  cbn [List.length seq combine map snd]. now rewrite IH.
Qed.

Lemma combine_seq_nth (l : list Topic) :
  forall n i t,
    In (i, t) (combine (seq n (List.length l)) l) ->
    n <= i /\ nth_error l (i - n) = Some t.
Proof.
  induction l as [|x l IH]; intros n i t; [intros []|].
  cbn [List.length seq combine]. intros [[= <- <-]|H].
  - rewrite Nat.sub_diag. split; [lia|reflexivity].
  - apply IH in H as [L N]. split; [lia|].
    replace (i - n) with (S (i - S n)) by lia. exact N.
Qed.

(** The object the cycle picks is the topic selected, at its place in
    the active list. *)
Lemma select_index_select_next (act : list Topic) :
  option_map snd (select_index act) = select_next act.
Proof.
  rewrite select_next_hd. unfold select_index, sorted_topics, enumerate.
  rewrite <- (combine_seq_snd act 0) at 3.
  rewrite <- (sorted_map snd sort_key).
  destruct (sorted _ _); reflexivity.
Qed.

Lemma select_index_nth (act : list Topic) (i : nat) (t : Topic) :
  select_index act = Some (i, t) -> nth_error act i = Some t.
Proof.
  unfold select_index, enumerate. intros H.
  assert (I : In (i, t) (sorted (fun it => sort_key (snd it))
                           (combine (seq 0 (List.length act)) act))).
  { destruct (sorted _ _); [discriminate|]. injection H as ->. now left. }
  apply in_sorted, combine_seq_nth in I as [_ N].
  now rewrite Nat.sub_0_r in N.
Qed.

Lemma example_queue_selects_A (act : list Topic) :
  Permutation [topic_A; topic_B; topic_C] act ->
  select_next act = Some topic_A.
Proof.
  intros P.
  assert (N : act <> []).
  { intros ->. apply Permutation_sym in P. now apply Permutation_nil_cons in P. }
  rewrite select_next_hd.
  destruct (hd_sorted_some sort_key act N) as [t H].
  fold (sorted_topics act) in H. rewrite H. f_equal.
  rewrite <- select_next_hd in H.
  destruct (select_next_least act t H) as [Ht Least].
  assert (HA : In topic_A act) by (eapply Permutation_in; [exact P|now left]).
  specialize (Least topic_A HA).
  apply (Permutation_in _ (Permutation_sym P)) in Ht.
  destruct Ht as [<-|[<-|[<-|[]]]]; [reflexivity|discriminate Least|discriminate Least].
Qed.

(** C3 (as amended).  Nothing is selected from an empty list and a
    topic is selected from any other.  The topic selected is the first
    of the list among those of least key, the key being the priority
    rank (high, medium, low) and then [last_researched] as a string, a
    missing or empty timestamp counting as ['1970-01-01'].  When every
    recorded timestamp is later than that date, no active topic is ahead
    of the selected one in the order of the specification: within a
    priority a topic never researched is preferred.  From the topics A
    (high, never researched), B (high, researched yesterday) and C (low,
    never researched), in any order, A is selected. *)
Theorem select_next_order :
  (forall act,
      (act = [] -> select_next act = None)
      /\ (act <> [] -> exists t, select_next act = Some t)
      /\ (forall t,
            select_next act = Some t ->
            (exists l1 l2,
                act = l1 ++ t :: l2
                /\ (forall u, In u l1 ->
                               key_lt (sort_key t) (sort_key u) = true)
                /\ (forall u, In u l2 ->
                               key_lt (sort_key u) (sort_key t) = false))
            /\ (forall u, In u act -> key_le (sort_key t) (sort_key u) = true)
            /\ (after_epoch act ->
                forall u, In u act -> spec_before u t = false)))
  /\ (forall act,
        Permutation [topic_A; topic_B; topic_C] act ->
        select_next act = Some topic_A).
Proof.
  split; [|exact example_queue_selects_A].
  intros act. split; [intros ->; reflexivity|]. split.
  - intros H. rewrite select_next_hd. now apply hd_sorted_some.
  - intros t H. split; [now apply select_next_first_least|].
    destruct (select_next_least act t H) as [Ht Least].
    split; [exact Least|].
    intros E u Hu. destruct (spec_before u t) eqn:S; [|reflexivity].
    pose proof (spec_before_key_lt act u t E Hu Ht S) as L.
    specialize (Least u Hu). unfold key_le in Least.
    rewrite L in Least. discriminate.
Qed.

Lemma priority_order_none (p : string) :
  priority_order p = None <-> ~ recognized p.
Proof.
  unfold priority_order, recognized.
  destruct (String.eqb_spec p "high") as [->|H]; [split; [discriminate|tauto]|].
  destruct (String.eqb_spec p "medium") as [->|M]; [split; [discriminate|tauto]|].
  destruct (String.eqb_spec p "low") as [->|L]; [split; [discriminate|tauto]|].
  split; [tauto|reflexivity].
Qed.

Lemma rank_recognized (t : Topic) : recognized (priority t) -> rank t <= 2.
Proof.
  unfold rank, sort_key; simpl. intros [ -> | [ -> | -> ] ]; simpl; lia.
Qed.

Lemma rank_unrecognized (t : Topic) : ~ recognized (priority t) -> rank t = 3.
Proof.
  intros H. apply priority_order_none in H.
  unfold rank, sort_key; simpl. now rewrite H.
Qed.

(** C10.  A topic whose priority is not 'high', 'medium' or 'low' has
    rank 3, after the rank 2 of every low-priority topic, and when it is
    the topic selected no active topic has a recognized priority. *)
Theorem unrecognized_priority_last (act : list Topic) (t : Topic) :
  ~ recognized (priority t) ->
  rank t = 3
  /\ (forall u, priority u = "low" -> rank u = 2 /\ rank u < rank t)
  /\ (select_next act = Some t ->
      forall u, In u act -> ~ recognized (priority u)).
Proof.
  intros N. pose proof (rank_unrecognized t N) as R3.
  split; [exact R3|]. split.
  - intros u L. unfold rank at 1 2, sort_key; simpl. rewrite L, R3. simpl. lia.
  - intros S u Hu Ru.
    destruct (select_next_least act t S) as [_ Least].
    specialize (Least u Hu). unfold key_le in Least.
    apply negb_true_iff in Least.
    assert (L : key_lt (sort_key u) (sort_key t) = true).
    { apply key_lt_spec. left. fold (rank u) (rank t).
      pose proof (rank_recognized u Ru). lia. }
    congruence.
Qed.

(** ** The queue document *)

Lemma topic_json_roundtrip (t : Topic) : topic_of_json (topic_to_json t) = Some t.
Proof. destruct t as [i ti de p [lr|]]; reflexivity. Qed.

Lemma topic_list_json_roundtrip (l : list Topic) :
  topic_list_of_json (map topic_to_json l) = Some l.
Proof.
  induction l as [|t l IH]; [reflexivity|].
  cbn [map topic_list_of_json]. now rewrite topic_json_roundtrip, IH.
Qed.

Lemma topics_json_roundtrip (q : Topics) :
  topics_of_json (topics_to_json q) = Some q.
Proof.
  destruct q as [a c]. unfold topics_to_json, topics_of_json.
  cbn [dict_get String.eqb Ascii.eqb Bool.eqb active completed].
  now rewrite !topic_list_json_roundtrip.
Qed.

Lemma topic_json_wf (t : Topic) : json_wf (topic_to_json t) = true.
Proof. destruct t as [i ti de p [lr|]]; reflexivity. Qed.

Lemma topic_list_json_wf (l : list Topic) :
  forallb json_wf (map topic_to_json l) = true.
Proof.
  induction l as [|t l IH]; [reflexivity|].
  cbn [map forallb]. now rewrite topic_json_wf, IH.
Qed.

Lemma topics_json_wf (q : Topics) : json_wf (topics_to_json q) = true.
Proof.
  unfold topics_to_json.
  cbn [json_wf map fst snd forallb nodup_keys existsb String.eqb Ascii.eqb
       Bool.eqb negb andb orb].
  now rewrite !topic_list_json_wf.
Qed.

Section Persistence.
Context {J : JsonLib}.

Lemma load_saved (topics : Topics) (w : World) :
  faithful J ->
  load_topics (save_topics topics w) = (Ok topics, save_topics topics w).
Proof.
  intros F. unfold load_topics, save_topics, write_topics_file.
  cbn [topics_file].
  now rewrite (F _ (topics_json_wf topics)), topics_json_roundtrip.
Qed.


End Persistence.

(** ** The identifier of a new topic *)


Section Adding.
Context {J : JsonLib}.


End Adding.

End ResearchProofs.

(* ================================================================== *)
(** * The reply builder *)
(* ================================================================== *)

Module ReplyProofs.
Import Letta Reply StringFacts.

Lemma strip_prefix_spec (p : string) :
  forall s r, strip_prefix p s = Some r <-> s = (p ++ r)%string.
Proof.
  induction p as [|a p IH]; intros s r; simpl.
  - split; [intros [= ->]; reflexivity|intros ->; reflexivity].
  - destruct s as [|b s]; [split; discriminate|].
    destruct (Ascii.eqb_spec a b) as [<-|N].
    + rewrite IH. split; [intros ->; reflexivity|intros [= ->]; reflexivity].
    + split; [discriminate|intros [= E _]; congruence].
Qed.

Lemma span_segment_sound (s : string) :
  forall seg rest,
    span_segment s = (seg, rest) ->
    s = (seg ++ rest)%string /\ no_slash seg = true /\ ends_segment rest.
Proof.
  induction s as [|c s IH]; intros seg rest; simpl.
  - intros [= <- <-]. repeat split. now left.
  - destruct (Ascii.eqb_spec c "/"%char) as [->|N].
    + intros [= <- <-]. repeat split. right; eauto.
    + destruct (span_segment s) as [seg' rest'] eqn:E.
      intros [= <- <-].
      destruct (IH seg' rest' eq_refl) as (-> & Hn & He).
      repeat split; [|exact He]. simpl. rewrite Hn.
      destruct (Ascii.eqb_spec c "/"%char); [contradiction|reflexivity].
Qed.

Lemma span_segment_complete (seg : string) :
  forall rest,
    no_slash seg = true -> ends_segment rest ->
    span_segment (seg ++ rest) = (seg, rest).
Proof.
  induction seg as [|c seg IH]; intros rest Hn He; simpl.
  - destruct He as [->|[rest' ->]]; reflexivity.
  - simpl in Hn. apply andb_true_iff in Hn as [Hc Hn].
    apply negb_true_iff in Hc. rewrite Hc. now rewrite IH.
Qed.

Lemma re_match_spec (url handle rkey : string) :
  re_match url = Some (handle, rkey) <-> matches url handle rkey.
Proof.
  unfold re_match, matches, permalink, segment. split.
  - destruct (strip_prefix _ url) as [r1|] eqn:P1; [|discriminate].
    apply strip_prefix_spec in P1 as ->.
    destruct (span_segment r1) as [h r2] eqn:S1.
    apply span_segment_sound in S1 as (-> & Hh & _).
    destruct (String.eqb_spec h ""); [discriminate|].
    destruct (strip_prefix "/post/" r2) as [r3|] eqn:P2; [|discriminate].
    apply strip_prefix_spec in P2 as ->.
    destruct (span_segment r3) as [k rest] eqn:S2.
    apply span_segment_sound in S2 as (-> & Hk & He).
    destruct (String.eqb_spec k ""); [discriminate|].
    intros [= <- <-]. exists rest.
    rewrite !append_assoc. auto.
  - intros (rest & -> & [Hh0 Hh] & [Hk0 Hk] & He).
    rewrite !append_assoc.
    rewrite (proj2 (strip_prefix_spec _ _ _) eq_refl).
    rewrite (span_segment_complete handle) by (auto; right; eexists; reflexivity).
    rewrite eqb_empty_false by assumption.
    rewrite (proj2 (strip_prefix_spec "/post/" _ _) eq_refl).
    rewrite (span_segment_complete rkey) by assumption.
    now rewrite eqb_empty_false.
Qed.

Lemma parse_ok_iff (url handle rkey : string) :
  parse_post_url url = Ok (handle, rkey) <-> matches url handle rkey.
Proof.
  rewrite <- re_match_spec. unfold parse_post_url.
  destruct (re_match url) as [[h k]|]; split;
    congruence || (intros [= -> ->]; reflexivity) || discriminate.
Qed.

Lemma parse_permalink (handle rkey : string) :
  segment handle -> segment rkey ->
  parse_post_url (permalink handle rkey) = Ok (handle, rkey).
Proof.
  intros Hh Hk. apply parse_ok_iff.
  exists "". rewrite append_empty_r. repeat split; try apply Hh; try apply Hk.
  now left.
Qed.

Lemma parse_no_match (url : string) :
  (forall handle rkey, ~ matches url handle rkey) ->
  parse_post_url url = Raise (ValueError ("Invalid Bluesky post URL: " ++ url)).
Proof.
  intros H. unfold parse_post_url.
  destruct (re_match url) as [[h k]|] eqn:E; [|reflexivity].
  apply re_match_spec in E. now apply H in E.
Qed.

(** A URL of the permalink shape is parsed into the handle and record
    key it is made of, and into nothing else. *)
Lemma is_permalink_parse (url : string) :
  is_permalink url ->
  exists handle rkey,
    parse_post_url url = Ok (handle, rkey) /\ url = permalink handle rkey.
Proof.
  intros (h & k & Hh & Hk & ->). exists h, k. split; [|reflexivity].
  now apply parse_permalink.
Qed.

(** C7 (as amended).  The example URL gives alice.example and xyz123.
    [parse_post_url] returns a handle and a record key exactly when the
    URL begins with a permalink for them whose record key runs to the
    end of the URL or to the next slash: what follows that slash is
    ignored.  A permalink is parsed into its own handle and record key,
    and a URL that begins with no permalink raises the ValueError for an
    invalid URL. *)
Theorem parse_post_url_prefix_match :
  parse_post_url "https://bsky.app/profile/alice.example/post/xyz123"
    = Ok ("alice.example", "xyz123")
  /\ (forall url handle rkey,
        parse_post_url url = Ok (handle, rkey) <-> matches url handle rkey)
  /\ (forall url,
        (forall handle rkey, ~ matches url handle rkey) ->
        parse_post_url url
          = Raise (ValueError ("Invalid Bluesky post URL: " ++ url)))
  /\ (forall handle rkey,
        segment handle -> segment rkey ->
        parse_post_url (permalink handle rkey) = Ok (handle, rkey)).
Proof.
  split; [reflexivity|]. split; [exact parse_ok_iff|].
  split; [exact parse_no_match|exact parse_permalink].
Qed.

Section Flow.
Context {J : JsonLib}.

Lemma fetch_post_uri (bsky : Bsky) (post_uri : string) (pd : PostData) :
  fetch_post bsky post_uri = Ok pd -> pd_uri pd = post_uri.
Proof.
  unfold fetch_post.
  destruct (split _ _) as [|repo [|collection [|rkey parts]]];
    try discriminate.
  destruct (get_record bsky repo collection rkey); [|discriminate].
  destruct (get_profile bsky repo); [|discriminate].
  cbn [bind]. intros [= <-]. reflexivity.
Qed.

(** C5.  A reply flow that returns has issued exactly one
    [create_record] call, which the service accepted; its record
    replies with root and parent both equal to the uri and cid of the
    post fetched for the URL, and carries the text returned. *)
Theorem successful_reply_is_flat
    (cfg : Config) (bsky : Bsky) (stream : list StreamItem)
    (now_utc post_url : string) (w w' : World) (res : ReplyResult) :
  reply_to_post cfg bsky stream now_utc post_url w = (Ok res, w') ->
  exists handle rkey post_uri post_data request response_uri,
    parse_post_url post_url = Ok (handle, rkey)
    /\ get_post_uri bsky handle rkey = Ok post_uri
    /\ fetch_post bsky post_uri = Ok post_data
    /\ pd_uri post_data = post_uri
    /\ created w' = created w ++ [request]
    /\ create_record bsky request = Ok response_uri
    /\ root (reply (record request))
         = {| uri := post_uri; cid := pd_cid post_data |}
    /\ parent (reply (record request))
         = {| uri := post_uri; cid := pd_cid post_data |}
    /\ rec_text (record request) = res_reply_text res
    /\ res_reply_text res <> ""
    /\ res_success res = true.
Proof.
  unfold reply_to_post.
  destruct (login bsky (username cfg) (password cfg)) as [[]|e];
    [|discriminate].
  cbn [bind].
  destruct (parse_post_url post_url) as [[handle rkey]|e]; [|discriminate].
  cbn [bind fst snd].
  destruct (get_post_uri bsky handle rkey) as [post_uri|e] eqn:U;
    [|discriminate].
  cbn [bind].
  destruct (fetch_post bsky post_uri) as [post_data|e] eqn:F;
    [|discriminate].
  cbn [bind].
  destruct (collect_reply stream "") as [collected|e]; [|discriminate].
  cbn [bind].
  destruct (truthy_str (strip collected)) eqn:T; cbn [negb]; [|discriminate].
  destruct (create_record bsky _) as [response_uri|e] eqn:C; [|discriminate].
  intros [= <- <-].
  pose proof (fetch_post_uri bsky post_uri post_data F) as E.
  exists handle, rkey, post_uri, post_data.
  eexists. exists response_uri.
  split; [reflexivity|]. split; [exact U|].
  split; [exact F|]. split; [exact E|]. split; [reflexivity|].
  split; [exact C|].
  cbn [record reply root parent reply_record rec_text res_reply_text
       res_success].
  rewrite E. repeat split.
  intros Z. apply truthy_str_false in Z. congruence.
Qed.

(** C6.  When the text collected from the agent is empty once
    trimmed, the reply flow raises and issues no [create_record]
    call; when the post was resolved and fetched, what it raises is
    the ValueError for a reply that was not generated. *)
Theorem empty_reply_publishes_nothing
    (cfg : Config) (bsky : Bsky) (stream : list StreamItem)
    (now_utc post_url : string) (w : World) (collected : string) :
  collect_reply stream "" = Ok collected ->
  strip collected = "" ->
  (exists e, reply_to_post cfg bsky stream now_utc post_url w = (Raise e, w))
  /\ created (snd (reply_to_post cfg bsky stream now_utc post_url w))
       = created w
  /\ (forall handle rkey post_uri post_data,
         login bsky (username cfg) (password cfg) = Ok tt ->
         parse_post_url post_url = Ok (handle, rkey) ->
         get_post_uri bsky handle rkey = Ok post_uri ->
         fetch_post bsky post_uri = Ok post_data ->
         reply_to_post cfg bsky stream now_utc post_url w
           = (Raise (ValueError "Agent did not generate reply"), w)).
Proof.
  intros C Z. apply truthy_str_false in Z.
  assert (G : exists e,
             reply_to_post cfg bsky stream now_utc post_url w = (Raise e, w)).
  { unfold reply_to_post.
    destruct (login bsky (username cfg) (password cfg)) as [[]|e];
      [|eexists; reflexivity].
    cbn [bind].
    destruct (parse_post_url post_url) as [[handle rkey]|e];
      [|eexists; reflexivity].
    cbn [bind fst snd].
    destruct (get_post_uri bsky handle rkey) as [post_uri|e];
      [|eexists; reflexivity].
    cbn [bind].
    destruct (fetch_post bsky post_uri) as [post_data|e];
      [|eexists; reflexivity].
    cbn [bind]. rewrite C. cbn [bind]. rewrite Z.
    eexists; reflexivity. }
  split; [exact G|]. split.
  - destruct G as [e ->]. reflexivity.
  - intros handle rkey post_uri post_data L P U F.
    unfold reply_to_post. rewrite L. cbn [bind]. rewrite P.
    cbn [bind fst snd]. rewrite U. cbn [bind]. rewrite F. cbn [bind].
    rewrite C. cbn [bind]. rewrite Z. reflexivity.
Qed.

Lemma reply_logs_untouched
    (cfg : Config) (bsky : Bsky) (stream : list StreamItem)
    (now_utc post_url : string) (w : World) :
  post_log (snd (reply_to_post cfg bsky stream now_utc post_url w))
    = post_log w
  /\ research_log (snd (reply_to_post cfg bsky stream now_utc post_url w))
       = research_log w.
Proof.
  unfold reply_to_post.
  destruct (_ <- login bsky (username cfg) (password cfg) ;; _)
    as [[post_data reply_text]|e]; [|split; reflexivity].
  destruct (create_record bsky _); split; reflexivity.
Qed.

End Flow.
End ReplyProofs.

(* ================================================================== *)
(** * The attempt logs *)
(* ================================================================== *)

Module AttemptLog.
Import Letta.

Section Flows.
Context {J : JsonLib}.

Lemma post_attempt_logged (topic_prompt now : string)
    (stream : list StreamItem) (dry_run : bool) (w : World) :
  exists e,
    post_log (snd (Poster.generate_autonomous_post topic_prompt now stream
                     dry_run w)) = post_log w ++ [e]
    /\ research_log (snd (Poster.generate_autonomous_post topic_prompt now
                            stream dry_run w)) = research_log w
    /\ pe_topic e = topic_prompt
    /\ pe_success e =
         match fst (Poster.generate_autonomous_post topic_prompt now stream
                      dry_run w) with
         | Ok r => Poster.res_success r
         | Raise _ => false
         end
    /\ pe_error e =
         match fst (Poster.generate_autonomous_post topic_prompt now stream
                      dry_run w) with
         | Ok _ => None
         | Raise x => Some x
         end.
Proof.
  unfold Poster.generate_autonomous_post.
  destruct (Poster.attempt stream dry_run) as [r|x];
    eexists; cbn; repeat split.
Qed.

Lemma research_attempt_logged (researched_at logged_at : string)
    (stream : list StreamItem) (topic : Research.Topic) (w : World) :
  exists e,
    research_log (snd (Research.conduct_research researched_at logged_at
                         stream topic w)) = research_log w ++ [e]
    /\ post_log (snd (Research.conduct_research researched_at logged_at
                        stream topic w)) = post_log w
    /\ re_topic e = Research.title topic
    /\ re_success e =
         is_ok (fst (fst (Research.conduct_research researched_at
                            logged_at stream topic w)))
    /\ re_error e =
         match fst (fst (Research.conduct_research researched_at
                           logged_at stream topic w)) with
         | Ok _ => None
         | Raise x => Some x
         end.
Proof.
  unfold Research.conduct_research.
  destruct (Research.collect stream Research.nothing_collected) as [st|x];
    eexists; cbn; repeat split.
Qed.

(** C4 (as amended).  A post attempt appends exactly one entry to
    the post log and a research attempt exactly one entry to the
    research log, whether the attempt returns or raises; the entry
    records the outcome and, on failure, the exception.  The reply
    flow writes to neither log. *)
Theorem attempts_logged_by_post_and_research_only :
  (forall topic_prompt now stream dry_run (w : World),
      exists e,
        post_log (snd (Poster.generate_autonomous_post topic_prompt now
                         stream dry_run w)) = post_log w ++ [e]
        /\ research_log (snd (Poster.generate_autonomous_post topic_prompt
                                now stream dry_run w)) = research_log w
        /\ pe_topic e = topic_prompt
        /\ pe_success e =
             match fst (Poster.generate_autonomous_post topic_prompt now
                          stream dry_run w) with
             | Ok r => Poster.res_success r
             | Raise _ => false
             end
        /\ pe_error e =
             match fst (Poster.generate_autonomous_post topic_prompt now
                          stream dry_run w) with
             | Ok _ => None
             | Raise x => Some x
             end)
  /\ (forall researched_at logged_at stream topic (w : World),
      exists e,
        research_log (snd (Research.conduct_research researched_at
                             logged_at stream topic w))
          = research_log w ++ [e]
        /\ post_log (snd (Research.conduct_research researched_at
                            logged_at stream topic w)) = post_log w
        /\ re_topic e = Research.title topic
        /\ re_success e =
             is_ok (fst (fst (Research.conduct_research researched_at
                                logged_at stream topic w)))
        /\ re_error e =
             match fst (fst (Research.conduct_research researched_at
                               logged_at stream topic w)) with
             | Ok _ => None
             | Raise x => Some x
             end)
  /\ (forall cfg bsky stream now_utc post_url (w : World),
      post_log (snd (Reply.reply_to_post cfg bsky stream now_utc post_url w))
        = post_log w
      /\ research_log (snd (Reply.reply_to_post cfg bsky stream now_utc
                              post_url w)) = research_log w).
Proof.
  split; [exact post_attempt_logged|].
  split; [exact research_attempt_logged|].
  exact ReplyProofs.reply_logs_untouched.
Qed.

End Flows.
End AttemptLog.

(* ================================================================== *)
(** * The statements on concrete runs *)
(* ================================================================== *)

Module Runs.
Import Letta Scenario.

(** ** Python's string methods *)

Example strip_both_ends : strip (String "009"%char "  a b  ") = "a b".
Proof. reflexivity. Qed.

Example replace_does_not_overlap : replace "aa" "b" "aaaaa" = "bba".
Proof. reflexivity. Qed.

Example split_keeps_empty_parts : split "/"%char "a/b//c" = ["a"; "b"; ""; "c"].
Proof. reflexivity. Qed.

Example split_at_uri :
  split "/"%char (replace "at://" "" "at://did:plc:alice/app.bsky.feed.post/xyz123")
  = ["did:plc:alice"; "app.bsky.feed.post"; "xyz123"].
Proof. reflexivity. Qed.

(** ** The poster *)

(** C1 on a stream that posts between two assistant messages. *)
Lemma publish_call_decides_content_witness :
  exists r,
    fst (Poster.generate_autonomous_post "topic" "2026-11-04T12:00:00"
           posting_stream false world0) = Ok r
    /\ Poster.res_posted r = true
    /\ Poster.res_success r = true
    /\ Poster.res_content r = JStr "Primes are the atoms of arithmetic.".
Proof.
  refine (PosterProofs.publish_call_decides_content
            "topic" "2026-11-04T12:00:00" posting_stream false world0
            [assistant "Drafting.";
             publish ["Primes are the atoms of arithmetic."];
             assistant "Posted."; done]
            [assistant "Drafting."]
            [assistant "Posted."; done]
            (publish ["Primes are the atoms of arithmetic."])
            _ "Primes are the atoms of arithmetic."
            eq_refl eq_refl _ eq_refl eq_refl _).
  - intros c' tc' [<-|[]]. discriminate.
  - intros c' [<-|[<-|[]]]; reflexivity.
Defined.

(** C1 as stated fails: the publishing call carries the empty string as
    its first text, and the content is the assistant text. *)
Lemma empty_first_text_falls_back :
  exists tc r,
    Poster.publish_call (publish [""]) = Some tc
    /\ In (Yield (publish [""])) empty_text_stream
    /\ Poster.first_text tc = Ok (JStr "")
    /\ fst (Poster.generate_autonomous_post "topic" "2026-11-04T12:00:00"
              empty_text_stream false world0) = Ok r
    /\ Poster.res_posted r = true
    /\ Poster.res_content r = JStr "hello"
    /\ Poster.res_content r <> JStr "".
Proof.
  do 2 eexists. split; [reflexivity|]. split; [right; left; reflexivity|].
  split; [reflexivity|]. split; [reflexivity|]. split; [reflexivity|].
  split; [reflexivity|]. discriminate.
Qed.

(** A call without [text] is counted as a post, and the report that
    slices its content raises: the attempt is logged as failed. *)
Example missing_text_raises :
  Poster.generate_autonomous_post "topic" "2026-11-04T12:00:00"
    [Yield (publish_with (JDict [])); Yield done] false world0
  = (Raise TypeError,
     {| post_log := [ {| pe_timestamp := "2026-11-04T12:00:00";
                         pe_success := false;
                         pe_topic := "topic";
                         pe_content := JNull;
                         pe_error := Some TypeError |} ];
        research_log := []; topics_file := None; created := [] |}).
Proof. reflexivity. Qed.

(** A transport fault in the middle of the stream is logged and raised
    again. *)
Example broken_stream_is_logged :
  Poster.generate_autonomous_post "topic" "2026-11-04T12:00:00"
    broken_stream true world0
  = (Raise (ServiceError "connection reset"),
     {| post_log := [ {| pe_timestamp := "2026-11-04T12:00:00";
                         pe_success := false;
                         pe_topic := "topic";
                         pe_content := JNull;
                         pe_error := Some (ServiceError "connection reset") |} ];
        research_log := []; topics_file := None; created := [] |}).
Proof. reflexivity. Qed.

(** Of two publishing calls the last one gives the content. *)
Example last_call_wins :
  fst (Poster.generate_autonomous_post "topic" "2026-11-04T12:00:00"
         [Yield (publish ["first"]); Yield (publish ["second"]); Yield done]
         false world0)
  = Ok {| Poster.res_success := true; Poster.res_posted := true;
          Poster.res_content := JStr "second"; Poster.res_response := "";
          Poster.res_tool_calls := 2 |}.
Proof. reflexivity. Qed.

(** C2 on a dry run in which the agent only talks. *)
Lemma success_and_fallback_content_witness :
  exists r,
    fst (Poster.generate_autonomous_post "topic" "2026-11-04T12:00:00"
           chat_stream true world0) = Ok r
    /\ Poster.res_posted r = false
    /\ Poster.res_success r = true
    /\ Poster.res_content r = JStr "I would post this thought."
    /\ Poster.res_response r = "I would post this thought.".
Proof.
  refine (proj2 (PosterProofs.success_and_fallback_content
                   "topic" "2026-11-04T12:00:00" chat_stream true world0)
            [assistant "I would post"; assistant "this thought."; done]
            eq_refl _).
  intros c [<-|[<-|[<-|[]]]]; reflexivity.
Defined.

(** ** The scheduler *)

(** C3 on the example queue, listed backwards. *)
Lemma select_next_order_witness :
  Research.select_next [topic_C; topic_B; topic_A] = Some topic_A
  /\ forall u, In u [topic_C; topic_B; topic_A] ->
               Research.spec_before u topic_A = false.
Proof.
  split.
  - apply (proj2 ResearchProofs.select_next_order).
    apply Permutation_rev with (l := [topic_A; topic_B; topic_C]).
  - refine (proj2 (proj2 (proj2 (proj2 (proj1 ResearchProofs.select_next_order
                                          [topic_C; topic_B; topic_A]))
                            topic_A eq_refl)) _).
    intros u s [<-|[<-|[<-|[]]]]; simpl; intros [= <-]; reflexivity.
Defined.

(** C3 as stated fails: B was researched in 1969 and is selected before
    A, of the same priority and never researched. *)
Lemma pre_epoch_timestamp_wins :
  Research.select_next [topic_A; topic_B_old] = Some topic_B_old
  /\ In topic_A [topic_A; topic_B_old]
  /\ Research.priority topic_A = Research.priority topic_B_old
  /\ Research.last_researched topic_A = None
  /\ Research.spec_before topic_A topic_B_old = true.
Proof. repeat split. now left. Qed.

(** A cycle on a fresh deployment seeds the queue, researches the first
    high-priority topic, logs it and saves its timestamp. *)
Example cycle_on_fresh_deployment :
  is_ok (fst (Research.run_research_cycle "2026-11-04T12:00:00"
                "2026-11-04T12:00:01" [Yield done] world0)) = true
  /\ map re_topic_id
       (research_log (snd (Research.run_research_cycle "2026-11-04T12:00:00"
                             "2026-11-04T12:00:01" [Yield done] world0)))
     = ["asi-alignment"]
  /\ match fst (Research.load_topics
                  (snd (Research.run_research_cycle "2026-11-04T12:00:00"
                          "2026-11-04T12:00:01" [Yield done] world0))) with
     | Ok topics =>
         map Research.last_researched (Research.active topics)
         = [Some "2026-11-04T12:00:00"; None; None; None; None]
     | Raise _ => False
     end.
Proof. repeat split. Qed.

(** C10 on a queue whose only topic is 'urgent'. *)
Lemma unrecognized_priority_last_witness :
  Research.rank topic_urgent = 3
  /\ forall u, In u [topic_urgent] -> ~ Research.recognized (Research.priority u).
Proof.
  assert (N : ~ Research.recognized (Research.priority topic_urgent)).
  { intros [H|[H|H]]; discriminate H. }
  pose proof (ResearchProofs.unrecognized_priority_last
                [topic_urgent] topic_urgent N) as (R & _ & S).
  split; [exact R|exact (S eq_refl)].
Defined.

Lemma json_tree_faithful : faithful json_tree.
Proof. intros v _. reflexivity. Qed.




(** ** The reply builder *)

(** A reply to the example post: the call issued and the result. *)
Example reply_to_example_post :
  Reply.reply_to_post demo_config demo_bsky reply_stream now_utc example_url
    world0
  = (Ok {| Reply.res_success := true;
           Reply.res_reply_url :=
             "https://bsky.app/profile/gauge.example/post/3kreply";
           Reply.res_reply_text := "hello back :)" |},
     {| post_log := []; research_log := []; topics_file := None;
        created :=
          [ {| repo := "did:plc:gauge";
               collection := "app.bsky.feed.post";
               record :=
                 {| type_ := "app.bsky.feed.post";
                    rec_text := "hello back :)";
                    reply :=
                      {| root :=
                           {| uri := "at://did:plc:alice/app.bsky.feed.post/xyz123";
                              cid := "bafyalice" |};
                         parent :=
                           {| uri := "at://did:plc:alice/app.bsky.feed.post/xyz123";
                              cid := "bafyalice" |} |};
                    createdAt := "2026-11-04T12:00:00.000000Z" |} |} ] |}).
Proof. reflexivity. Qed.

(** C5 on a reply to alice.example's post. *)
Lemma successful_reply_is_flat_witness :
  exists request,
    created (snd (Reply.reply_to_post demo_config demo_bsky reply_stream
                    now_utc example_url world0)) = [request]
    /\ root (reply (record request))
       = {| uri := "at://did:plc:alice/app.bsky.feed.post/xyz123";
            cid := "bafyalice" |}
    /\ parent (reply (record request))
       = {| uri := "at://did:plc:alice/app.bsky.feed.post/xyz123";
            cid := "bafyalice" |}
    /\ rec_text (record request) = "hello back :)".
Proof.
  destruct (ReplyProofs.successful_reply_is_flat
              demo_config demo_bsky reply_stream now_utc example_url world0
              (snd (Reply.reply_to_post demo_config demo_bsky reply_stream
                      now_utc example_url world0))
              {| Reply.res_success := true;
                 Reply.res_reply_url :=
                   "https://bsky.app/profile/gauge.example/post/3kreply";
                 Reply.res_reply_text := "hello back :)" |}
              eq_refl)
    as (h & k & u & pd & rq & ru & P & U & F & E & C & _ & Rt & Pa & T & _).
  exists rq. split; [exact C|].
  cbv in P. injection P as <- <-.
  cbv in U. injection U as <-.
  cbv in F. injection F as <-.
  split; [exact Rt|]. split; [exact Pa|exact T].
Defined.

(** C6 on an agent that answers with blanks. *)
Lemma empty_reply_publishes_nothing_witness :
  Reply.reply_to_post demo_config demo_bsky blank_stream now_utc example_url
    world0
    = (Raise (ValueError "Agent did not generate reply"), world0)
  /\ created (snd (Reply.reply_to_post demo_config demo_bsky blank_stream
                     now_utc example_url world0)) = [].
Proof.
  destruct (ReplyProofs.empty_reply_publishes_nothing
              demo_config demo_bsky blank_stream now_utc example_url world0
              "   " eq_refl eq_refl) as (_ & C & V).
  split; [|exact C].
  exact (V "alice.example" "xyz123"
           "at://did:plc:alice/app.bsky.feed.post/xyz123"
           _ eq_refl eq_refl eq_refl eq_refl).
Defined.

(** C7 on a permalink and on a profile URL. *)
Lemma parse_post_url_prefix_match_witness :
  Reply.parse_post_url (Reply.permalink "alice.example" "xyz123")
    = Ok ("alice.example", "xyz123")
  /\ Reply.parse_post_url "https://bsky.app/profile/alice.example"
     = Raise (ValueError
                "Invalid Bluesky post URL: https://bsky.app/profile/alice.example").
Proof.
  destruct ReplyProofs.parse_post_url_prefix_match as (_ & M & N & Pm).
  split.
  - apply Pm; (split; [discriminate|reflexivity]).
  - apply N. intros h k Hm. apply M in Hm. discriminate Hm.
Defined.

(** C7 as stated fails: the URL of a post's liked-by page is not a
    permalink and is parsed as one. *)
Lemma trailing_path_is_parsed :
  ~ Reply.is_permalink liked_by_url
  /\ Reply.parse_post_url liked_by_url = Ok ("alice.example", "xyz123").
Proof.
  split; [|reflexivity].
  intros H. apply ReplyProofs.is_permalink_parse in H as (h & k & P & E).
  cbv in P. injection P as <- <-. discriminate E.
Qed.

(** C4 as stated fails: neither a reply that is published nor one that
    fails adds an entry to a log. *)
Lemma reply_attempt_not_logged :
  is_ok (fst (Reply.reply_to_post demo_config demo_bsky reply_stream now_utc
                example_url world0)) = true
  /\ ~ (exists e,
          post_log (snd (Reply.reply_to_post demo_config demo_bsky
                           reply_stream now_utc example_url world0))
            = post_log world0 ++ [e])
  /\ ~ (exists e,
          research_log (snd (Reply.reply_to_post demo_config demo_bsky
                               reply_stream now_utc example_url world0))
            = research_log world0 ++ [e])
  /\ is_ok (fst (Reply.reply_to_post demo_config demo_bsky blank_stream
                   now_utc example_url world0)) = false
  /\ ~ (exists e,
          post_log (snd (Reply.reply_to_post demo_config demo_bsky
                           blank_stream now_utc example_url world0))
            = post_log world0 ++ [e])
  /\ ~ (exists e,
          research_log (snd (Reply.reply_to_post demo_config demo_bsky
                               blank_stream now_utc example_url world0))
            = research_log world0 ++ [e]).
Proof.
  repeat split; try reflexivity; intros [e H]; discriminate H.
Qed.

End Runs.

(* ================================================================== *)
(** * The poster, further *)
(* ================================================================== *)

Module PosterMore.
Import Letta Poster StringFacts PosterProofs Terms.

Section Facts.
Context {J : JsonLib}.

Lemma collect_stops_at_done (pre : list StreamItem) (c : Chunk)
    (rest : list StreamItem) :
  str c = "done" ->
  forall st,
    collect (pre ++ Yield c :: rest) st = collect (pre ++ [Yield c]) st.
Proof.
  intros D. induction pre as [|[c'|e] pre IH]; intros st; cbn [app collect].
  - rewrite D. cbn. destruct (on_chunk c st); reflexivity.
  - destruct (on_chunk c' st) as [st'|e]; cbn [bind]; [|reflexivity].
    destruct (str c' =? "done"); [reflexivity|apply IH].
  - reflexivity.
Qed.

(** X1.  Whatever follows the chunk whose [str] is 'done' changes neither
    the result nor the log. *)
Theorem chunks_after_done_are_ignored
    (topic_prompt now : string) (pre : list StreamItem) (c : Chunk)
    (rest : list StreamItem) (dry_run : bool) (w : World) :
  str c = "done" ->
  generate_autonomous_post topic_prompt now (pre ++ Yield c :: rest) dry_run w
  = generate_autonomous_post topic_prompt now (pre ++ [Yield c]) dry_run w.
Proof.
  intros D. unfold generate_autonomous_post, attempt.
  now rewrite (collect_stops_at_done pre c rest D).
Qed.

Lemma is_publish_cons (c : Chunk) (cs : list Chunk) :
  existsb is_publish (c :: cs) = is_publish c || existsb is_publish cs.
Proof. reflexivity. Qed.

(** What a run that ends without an exception has collected. *)
Lemma run_ok_collected (cs : list Chunk) :
  forall st st',
    run cs st = Ok st' ->
    all_messages st' = all_messages st ++ assistant_messages cs
    /\ tool_calls st' = tool_calls st ++ tool_call_messages cs
    /\ posted st' = posted st || existsb is_publish cs
    /\ (existsb is_publish cs = false -> post_content st' = post_content st).
Proof.
  induction cs as [|c cs IH]; intros st st'.
  - cbn [run]. intros [= <-].
    unfold assistant_messages, tool_call_messages. cbn [filter existsb].
    rewrite !app_nil_r, orb_false_r. auto.
  - cbn [run]. rewrite (assistant_messages_cons c cs),
      (tool_call_messages_cons c cs), is_publish_cons.
    unfold is_publish at 1 3.
    destruct (publish_call c) as [tc|] eqn:P.
    + rewrite (on_chunk_publish c tc st P).
      destruct (first_text tc) as [pc|e]; [|discriminate]. cbn [bind].
      destruct (publish_call_kind c tc P) as [-> ->].
      intros R. apply IH in R as (A & T & Po & _).
      cbn [all_messages tool_calls posted] in A, T, Po.
      rewrite A, T, Po, <- !app_assoc, orb_true_r.
      repeat split. discriminate.
    + rewrite (on_chunk_other c st P). cbn [bind].
      intros R. apply IH in R as (A & T & Po & C).
      cbn [all_messages tool_calls posted post_content] in A, T, Po, C.
      rewrite A, T, Po, <- !app_assoc. auto.
Qed.

(** X2.  An outcome returned counts every tool call message read,
    publishing or not, gives the trimmed assistant text as its response,
    and is posted exactly when a chunk read calls the publishing tool;
    when it is not posted, its content is its response. *)
Theorem outcome_reports_what_was_read
    (topic_prompt now : string) (stream : list StreamItem) (dry_run : bool)
    (w : World) (cs : list Chunk) (r : PostResult) :
  chunks_read stream = Ok cs ->
  fst (generate_autonomous_post topic_prompt now stream dry_run w) = Ok r ->
  res_tool_calls r = List.length (tool_call_messages cs)
  /\ res_response r = strip (raw_text cs)
  /\ res_posted r = existsb is_publish cs
  /\ (res_posted r = false -> res_content r = JStr (res_response r)).
Proof.
  intros R. rewrite generate_result. unfold attempt.
  rewrite (collect_run stream _ _ R).
  destruct (run cs nothing_collected) as [st|e] eqn:Run; [|discriminate].
  apply run_ok_collected in Run as (A & T & Po & C).
  cbn [all_messages tool_calls posted post_content nothing_collected app orb]
    in A, T, Po, C.
  cbn [bind]. destruct (if posted st then _ else _); [|discriminate].
  cbn [bind]. intros [= <-].
  cbn [res_tool_calls res_response res_posted res_content].
  rewrite T, A, Po, response_text_concat. fold (raw_text cs).
  repeat split. intros N. now rewrite (C N).
Qed.

Lemma tool_call_messages_app (a b : list Chunk) :
  tool_call_messages (a ++ b) = tool_call_messages a ++ tool_call_messages b.
Proof. apply filter_app. Qed.

(** The outcome of a stream whose last publishing call gives [pc] as its
    first text: the report slices [pc], then the result is returned. *)
Lemma attempt_after_publish (stream : list StreamItem) (dry_run : bool)
    (cs before after : list Chunk) (c : Chunk) (tc : ToolCall) (pc : json) :
  chunks_read stream = Ok cs ->
  cs = before ++ c :: after ->
  (forall c' tc', In c' before -> publish_call c' = Some tc' ->
                  is_ok (first_text tc') = true) ->
  publish_call c = Some tc ->
  first_text tc = Ok pc ->
  (forall c', In c' after -> publish_call c' = None) ->
  attempt stream dry_run =
    (_ <- getslice_to 100 pc ;;
     Ok {| res_success := true;
           res_posted := true;
           res_content := if truthy pc then pc else JStr (strip (raw_text cs));
           res_response := strip (raw_text cs);
           res_tool_calls := List.length (tool_call_messages cs) |}).
Proof.
  intros R -> Hb P F Ha. unfold attempt.
  rewrite (collect_run stream _ _ R), run_app.
  destruct (run_decodable before nothing_collected Hb) as (st1 & R1 & A1 & T1).
  rewrite R1. cbn [bind run].
  rewrite (on_chunk_publish c tc st1 P), F. cbn [bind].
  rewrite run_no_publish by exact Ha.
  cbn [bind all_messages tool_calls posted post_content orb].
  rewrite response_text_concat. unfold raw_text.
  rewrite A1, T1.
  rewrite assistant_messages_app, (assistant_messages_cons c after).
  rewrite tool_call_messages_app, (tool_call_messages_cons c after).
  destruct (publish_call_kind c tc P) as [-> ->].
  cbn [nothing_collected all_messages tool_calls app].
  rewrite <- !app_assoc. reflexivity.
Qed.

Lemma on_chunk_decodable (c : Chunk) (st : Collected) :
  (forall tc, publish_call c = Some tc -> is_ok (first_text tc) = true) ->
  exists st', on_chunk c st = Ok st'.
Proof.
  intros H. destruct (publish_call c) as [tc|] eqn:P.
  - rewrite (on_chunk_publish c tc st P).
    specialize (H tc eq_refl). destruct (first_text tc); [|discriminate].
    eexists; reflexivity.
  - rewrite (on_chunk_other c st P). eexists; reflexivity.
Qed.

Lemma collect_reaches_fault (pre : list Chunk) (e : exn)
    (rest : list StreamItem) :
  (forall c, In c pre -> str c <> "done") ->
  (forall c tc, In c pre -> publish_call c = Some tc ->
                is_ok (first_text tc) = true) ->
  forall st, collect (map Yield pre ++ Fault e :: rest) st = Raise e.
Proof.
  induction pre as [|c pre IH]; intros Hd Hp st; [reflexivity|].
  cbn [map app collect].
  destruct (on_chunk_decodable c st) as [st' ->];
    [intros tc; apply Hp; now left|].
  cbn [bind].
  rewrite (proj2 (String.eqb_neq _ _) (Hd c (or_introl eq_refl))).
  apply IH; intros; [apply Hd|eapply Hp]; try right; eassumption.
Qed.

(** X3.  When the transport raises while the stream is read, the flow
    raises the same exception and logs the attempt as failed with it and
    without content, even when a publishing call was read before. *)
Theorem fault_is_logged_and_raised
    (topic_prompt now : string) (pre : list Chunk) (e : exn)
    (rest : list StreamItem) (dry_run : bool) (w : World) :
  (forall c, In c pre -> str c <> "done") ->
  (forall c tc, In c pre -> publish_call c = Some tc ->
                is_ok (first_text tc) = true) ->
  generate_autonomous_post topic_prompt now
    (map Yield pre ++ Fault e :: rest) dry_run w
  = (Raise e, log_post_attempt now false topic_prompt JNull (Some e) w).
Proof.
  intros Hd Hp. unfold generate_autonomous_post, attempt.
  now rewrite (collect_reaches_fault pre e rest Hd Hp).
Qed.

Lemma first_text_missing (tc : ToolCall) (d : list (string * json)) :
  json_loads (arguments tc) = Some (JDict d) ->
  dict_get d "text" = None ->
  first_text tc = Ok JNull.
Proof.
  intros L G. unfold first_text, loads_arguments, args_text.
  rewrite L. cbn [bind]. rewrite G. reflexivity.
Qed.

Lemma first_text_string (tc : ToolCall) (d : list (string * json))
    (ch : ascii) (s : string) :
  json_loads (arguments tc) = Some (JDict d) ->
  dict_get d "text" = Some (JStr (String ch s)) ->
  first_text tc = Ok (JStr (String ch "")).
Proof.
  intros L G. unfold first_text, loads_arguments, args_text.
  rewrite L. cbn [bind]. rewrite G. reflexivity.
Qed.

(** X4.  When the last publishing call read has no [text] among its
    arguments, the flow raises TypeError although the tool was called,
    and logs the attempt as failed, dry run or not. *)
Theorem publish_without_text_raises
    (topic_prompt now : string) (stream : list StreamItem) (dry_run : bool)
    (w : World) (cs before after : list Chunk) (c : Chunk) (tc : ToolCall)
    (d : list (string * json)) :
  chunks_read stream = Ok cs ->
  cs = before ++ c :: after ->
  (forall c' tc', In c' before -> publish_call c' = Some tc' ->
                  is_ok (first_text tc') = true) ->
  publish_call c = Some tc ->
  json_loads (arguments tc) = Some (JDict d) ->
  dict_get d "text" = None ->
  (forall c', In c' after -> publish_call c' = None) ->
  generate_autonomous_post topic_prompt now stream dry_run w
  = (Raise TypeError,
     log_post_attempt now false topic_prompt JNull (Some TypeError) w).
Proof.
  intros R E Hb P L G Ha. unfold generate_autonomous_post.
  rewrite (attempt_after_publish stream dry_run cs before after c tc JNull
             R E Hb P (first_text_missing tc d L G) Ha).
  reflexivity.
Qed.

(** X5.  When the last publishing call read gives [text] as a string and
    not as a list of strings, the content of the outcome is the first
    character of that string. *)
Theorem text_as_string_gives_first_character
    (topic_prompt now : string) (stream : list StreamItem) (dry_run : bool)
    (w : World) (cs before after : list Chunk) (c : Chunk) (tc : ToolCall)
    (d : list (string * json)) (ch : ascii) (s : string) :
  chunks_read stream = Ok cs ->
  cs = before ++ c :: after ->
  (forall c' tc', In c' before -> publish_call c' = Some tc' ->
                  is_ok (first_text tc') = true) ->
  publish_call c = Some tc ->
  json_loads (arguments tc) = Some (JDict d) ->
  dict_get d "text" = Some (JStr (String ch s)) ->
  (forall c', In c' after -> publish_call c' = None) ->
  exists r,
    fst (generate_autonomous_post topic_prompt now stream dry_run w) = Ok r
    /\ res_posted r = true
    /\ res_content r = JStr (String ch "").
Proof.
  intros R E Hb P L G Ha. rewrite generate_result.
  rewrite (attempt_after_publish stream dry_run cs before after c tc
             (JStr (String ch "")) R E Hb P (first_text_string tc d ch s L G)
             Ha).
  cbn. eexists; repeat split.
Qed.

End Facts.

Section MainFacts.
Context {J : JsonLib}.

(** X6.  [main] exits with 0 exactly when the configuration was read and
    the flow returned an outcome that is posted or a dry run; when the
    configuration cannot be read nothing is logged, and otherwise exactly
    one entry is. *)
Theorem poster_exit_status
    (config : result (string * string)) (topic_prompt now : string)
    (stream : list StreamItem) (dry_run : bool) (w : World) :
  (fst (fst (PosterCli.main config topic_prompt now stream dry_run w)) = 0
   <-> is_ok config = true
       /\ exists r,
            fst (generate_autonomous_post topic_prompt now stream dry_run w)
              = Ok r
            /\ res_posted r || dry_run = true)
  /\ (fst (fst (PosterCli.main config topic_prompt now stream dry_run w)) = 0
      \/ fst (fst (PosterCli.main config topic_prompt now stream dry_run w)) = 1)
  /\ (is_ok config = false ->
      snd (PosterCli.main config topic_prompt now stream dry_run w) = w)
  /\ (is_ok config = true ->
      exists e,
        post_log (snd (PosterCli.main config topic_prompt now stream dry_run w))
        = post_log w ++ [e]).
Proof.
  unfold PosterCli.main. destruct config as [cfg|e]; cbn [is_ok].
  - rewrite generate_result.
    unfold generate_autonomous_post.
    destruct (attempt stream dry_run) as [r|e] eqn:A.
    + assert (S : res_success r = res_posted r || dry_run).
      { unfold attempt in A.
        destruct (collect stream nothing_collected); [|discriminate].
        cbn [bind] in A. destruct (if posted a then _ else _); [|discriminate].
        cbn [bind] in A. injection A as <-. reflexivity. }
      destruct (res_success r) eqn:Sr; cbn [fst snd].
      * split; [split; [intros _; split; [reflexivity|]|reflexivity]|].
        -- exists r. split; [reflexivity|now rewrite <- S].
        -- split; [now left|]. split; [discriminate|].
           intros _. eexists. reflexivity.
      * split; [split; [discriminate|]|].
        -- intros (_ & r' & [= <-] & H). congruence.
        -- split; [now right|]. split; [discriminate|].
           intros _. eexists. reflexivity.
    + cbn [fst snd]. split; [split; [discriminate|]|].
      * intros (_ & r' & [=] & _).
      * split; [now right|]. split; [discriminate|].
        intros _. eexists. reflexivity.
  - cbn [fst snd]. split; [split; [discriminate|intros [[=] _]]|].
    split; [now right|]. split; [reflexivity|discriminate].
Qed.

End MainFacts.
End PosterMore.

(* ================================================================== *)
(** * The topic queue, further *)
(* ================================================================== *)

Module QueueMore.
Import Research StringFacts OrderFacts ResearchProofs Terms.

Section Persistence.
Context {J : JsonLib}.

(** X7.  A load that returns can be repeated: the second load returns the
    same queue and writes nothing.  The first load writes only when the
    file is missing, and then what it writes and returns is the default
    queue. *)
Theorem load_topics_is_repeatable (w w1 : World) (topics : Topics) :
  faithful J ->
  load_topics w = (Ok topics, w1) ->
  load_topics w1 = (Ok topics, w1)
  /\ (topics_file w = None -> topics = default_topics)
  /\ (topics_file w <> None -> w1 = w)
  /\ post_log w1 = post_log w
  /\ research_log w1 = research_log w
  /\ created w1 = created w.
Proof.
  intros F. unfold load_topics at 1.
  destruct (topics_file w) as [p|] eqn:E.
  - destruct (json_loads p) as [v|] eqn:L; [|discriminate].
    destruct (topics_of_json v) as [q|] eqn:D; [|discriminate].
    intros [= <- <-]. unfold load_topics. rewrite E, L, D.
    repeat split; congruence.
  - intros [= <- <-]. change (write_topics_file _ w) with
      (save_topics default_topics w).
    rewrite (load_saved default_topics w F).
    repeat split; congruence.
Qed.

(** X8.  [add_topic] checks no collision: two titles with the same slug,
    added one after the other, give two active topics with the same id,
    both kept and both persisted. *)
Theorem add_topic_keeps_colliding_ids
    (title1 title2 d1 d2 p1 p2 : string) (w w1 : World) (topics : Topics) :
  faithful J ->
  load_topics w = (Ok topics, w1) ->
  topic_id_of title1 = topic_id_of title2 ->
  exists t1 t2 w2 w3,
    add_topic title1 d1 p1 w = (Ok t1, w2)
    /\ add_topic title2 d2 p2 w2 = (Ok t2, w3)
    /\ id t1 = id t2
    /\ load_topics w3
       = (Ok {| active := active topics ++ [t1; t2];
                completed := completed topics |}, w3).
Proof.
  intros F L E. unfold add_topic at 1. rewrite L.
  do 4 eexists. split; [reflexivity|].
  unfold add_topic. rewrite (load_saved _ w1 F).
  split; [reflexivity|]. split; [exact E|].
  rewrite (load_saved _ _ F). cbn [active completed].
  rewrite <- app_assoc. reflexivity.
Qed.

End Persistence.

(** ** The shape of an id *)












End QueueMore.

(* ================================================================== *)
(** * The research flow and the cycle *)
(* ================================================================== *)

Module ResearchMore.
Import Letta Research StringFacts OrderFacts ResearchProofs Terms.

Section Facts.
Context {J : JsonLib}.

(** The loop body folded over the chunks read. *)
Lemma collect_fold (stream : list StreamItem) :
  forall st,
    collect stream st =
      match chunks_read stream with
      | Ok cs => Ok (fold_left (fun s c => on_chunk c s) cs st)
      | Raise e => Raise e
      end.
Proof.
  induction stream as [|[c|e] rest IH]; intros st; cbn [collect chunks_read];
    try reflexivity.
  destruct (str c =? "done"); [reflexivity|].
  rewrite IH. destruct (chunks_read rest); reflexivity.
Qed.

Lemma filter_split {A} (f : A -> bool) (x : A) (l : list A) :
  filter f (x :: l) = filter f [x] ++ filter f l.
Proof. cbn. destruct (f x); reflexivity. Qed.

Ltac finish_effect :=
  cbn; rewrite ?app_nil_r, ?Nat.add_0_r, ?orb_false_r, ?orb_true_r;
  repeat split; try reflexivity; try lia.

(** What the loop body adds to the locals. *)
Lemma on_chunk_effect (c : Chunk) (st : Collected) :
  tool_calls (on_chunk c st) = tool_calls st ++ function_call_messages [c]
  /\ all_messages (on_chunk c st)
     = all_messages st ++ chunks_of_type "assistant_message" [c]
  /\ search_count (on_chunk c st)
     = search_count st + List.length (calls_named "web_search" [c])
  /\ archival_count (on_chunk c st)
     = archival_count st
       + List.length (calls_named "archival_memory_insert" [c])
  /\ blog_created (on_chunk c st)
     = blog_created st
       || negb (List.length (calls_named "create_whitewind_blog_post" [c])
                =? 0)%nat.
Proof.
  unfold on_chunk, function_call_messages, chunks_of_type, calls_named,
    call_name, has_type.
  cbn [filter].
  destruct (message_type c) as [mt|]; [|finish_effect].
  destruct (String.eqb_spec mt "function_call_message") as [->|N].
  - destruct (function_call c) as [[n|]|]; [| finish_effect | finish_effect].
    destruct (String.eqb_spec n "web_search") as [->|N1]; [finish_effect|].
    destruct (String.eqb_spec n "archival_memory_insert") as [->|N2];
      [finish_effect|].
    destruct (String.eqb_spec n "create_whitewind_blog_post") as [->|N3];
      finish_effect.
  - destruct (String.eqb_spec mt "assistant_message") as [->|N']; finish_effect.
Qed.

(** What the locals hold after the loop. *)
Lemma fold_collected (cs : list Chunk) :
  forall st,
    let st' := fold_left (fun s c => on_chunk c s) cs st in
    tool_calls st' = tool_calls st ++ function_call_messages cs
    /\ all_messages st' = all_messages st ++ chunks_of_type "assistant_message" cs
    /\ search_count st'
       = search_count st + List.length (calls_named "web_search" cs)
    /\ archival_count st'
       = archival_count st
         + List.length (calls_named "archival_memory_insert" cs)
    /\ blog_created st'
       = blog_created st
         || negb (List.length (calls_named "create_whitewind_blog_post" cs)
                  =? 0)%nat.
Proof.
  induction cs as [|c cs IH]; intros st.
  - cbn. rewrite ?app_nil_r, ?Nat.add_0_r, ?orb_false_r. auto.
  - cbn [fold_left]. cbn zeta in IH |- *.
    destruct (IH (on_chunk c st)) as (T & A & S & Ar & B).
    destruct (on_chunk_effect c st) as (T1 & A1 & S1 & Ar1 & B1).
    rewrite T, A, S, Ar, B, T1, A1, S1, Ar1, B1.
    unfold function_call_messages, chunks_of_type, calls_named.
    rewrite !(filter_split _ c cs), !length_app, <- !app_assoc, !Nat.add_assoc.
    repeat split.
    rewrite <- orb_assoc. f_equal.
    destruct (List.length (filter _ [c])), (List.length (filter _ cs));
      reflexivity.
Qed.

(** The result dict, from the locals after the loop. *)
Lemma conduct_research_read (researched_at logged_at : string)
    (stream : list StreamItem) (topic : Topic) (w : World) (cs : list Chunk) :
  chunks_read stream = Ok cs ->
  let st := fold_left (fun s c => on_chunk c s) cs nothing_collected in
  conduct_research researched_at logged_at stream topic w
  = (Ok {| res_success := true;
           res_findings := strip (findings_of (all_messages st));
           res_searches := search_count st;
           res_archival_entries := archival_count st;
           res_blog_created := blog_created st;
           res_tool_calls := List.length (tool_calls st) |},
     stamp topic researched_at,
     log_research logged_at (stamp topic researched_at) true
       (Some (findings_of (all_messages st))) None w).
Proof.
  intros R. unfold conduct_research. rewrite collect_fold, R. reflexivity.
Qed.

Lemma conduct_research_fault (researched_at logged_at : string)
    (stream : list StreamItem) (topic : Topic) (w : World) (e : exn) :
  chunks_read stream = Raise e ->
  conduct_research researched_at logged_at stream topic w
  = (Raise e, topic, log_research logged_at topic false None (Some e) w).
Proof.
  intros R. unfold conduct_research. rewrite collect_fold, R. reflexivity.
Qed.

(** X10.  [conduct_research] returns exactly when the transport raises
    nothing while the stream is read, and then always with success: it
    counts the function call messages read and, among them, the calls of
    the search tool and of the archival tool, tells whether the blog tool
    was called, and gives the topic back with the clock reading as its
    timestamp.  When the transport raises, the same exception is raised,
    the topic is given back unchanged and the failure is logged. *)
Theorem research_outcome (researched_at logged_at : string)
    (stream : list StreamItem) (topic : Topic) (w : World) :
  match chunks_read stream with
  | Ok cs =>
      exists r w',
        conduct_research researched_at logged_at stream topic w
          = (Ok r, stamp topic researched_at, w')
        /\ res_success r = true
        /\ res_tool_calls r = List.length (function_call_messages cs)
        /\ res_searches r = List.length (calls_named "web_search" cs)
        /\ res_archival_entries r
           = List.length (calls_named "archival_memory_insert" cs)
        /\ res_blog_created r
           = negb (List.length (calls_named "create_whitewind_blog_post" cs)
                   =? 0)%nat
        /\ topics_file w' = topics_file w
  | Raise e =>
      conduct_research researched_at logged_at stream topic w
        = (Raise e, topic, log_research logged_at topic false None (Some e) w)
  end.
Proof.
  destruct (chunks_read stream) as [cs|e] eqn:R;
    [|now apply conduct_research_fault].
  rewrite (conduct_research_read _ _ _ _ _ cs R).
  destruct (fold_collected cs nothing_collected) as (T & A & S & Ar & B).
  cbn zeta in T, A, S, Ar, B |- *.
  do 2 eexists. split; [reflexivity|].
  cbn [res_success res_tool_calls res_searches res_archival_entries
       res_blog_created].
  rewrite T, S, Ar, B. repeat split.
Qed.

Lemma findings_from (msgs : list Chunk) :
  forall acc,
    fold_left
      (fun acc msg =>
         match text msg with
         | Some t => (acc ++ t ++ String "010"%char EmptyString)%string
         | None => acc
         end) msgs acc
    = (acc ++ String.concat ""
                (flat_map (fun c => match text c with
                                    | Some t => [(t ++ String "010"%char "")%string]
                                    | None => []
                                    end) msgs))%string.
Proof.
  induction msgs as [|m msgs IH]; intros acc; cbn [fold_left flat_map].
  - cbn. now rewrite append_empty_r.
  - rewrite IH. destruct (text m) as [t|]; cbn [app]; [|reflexivity].
    now rewrite concat_empty_cons, append_assoc.
Qed.

Lemma flat_map_filter {A B} (p : A -> bool) (f : A -> list B) (l : list A) :
  flat_map f (filter p l) = flat_map (fun x => if p x then f x else []) l.
Proof.
  induction l as [|x l IH]; [reflexivity|]. cbn [filter flat_map].
  destruct (p x); cbn [flat_map app]; now rewrite IH.
Qed.

Lemma findings_of_texts (cs : list Chunk) :
  findings_of (chunks_of_type "assistant_message" cs)
  = String.concat "" (research_texts cs).
Proof.
  unfold findings_of. rewrite findings_from. cbn [append].
  unfold chunks_of_type, research_texts. now rewrite flat_map_filter.
Qed.

(** X11.  The findings returned are the texts of the assistant messages
    read, each followed by a line feed, in arrival order, the whole
    trimmed; the log records the length before trimming.  An assistant
    message that has a content and no text adds nothing: when none has a
    text the research still succeeds, with empty findings. *)
Theorem research_findings_are_the_texts
    (researched_at logged_at : string) (stream : list StreamItem)
    (topic : Topic) (w : World) (cs : list Chunk) :
  chunks_read stream = Ok cs ->
  exists r e,
    fst (fst (conduct_research researched_at logged_at stream topic w)) = Ok r
    /\ res_success r = true
    /\ res_findings r = strip (String.concat "" (research_texts cs))
    /\ research_log
         (snd (conduct_research researched_at logged_at stream topic w))
       = research_log w ++ [e]
    /\ re_success e = true
    /\ re_findings_length e
       = String.length (String.concat "" (research_texts cs))
    /\ ((forall c, In c cs -> has_type c "assistant_message" = true ->
                    text c = None) ->
        res_findings r = "" /\ re_findings_length e = 0).
Proof.
  intros R. rewrite (conduct_research_read _ _ _ _ _ cs R). cbn zeta.
  destruct (fold_collected cs nothing_collected) as (_ & A & _).
  cbn zeta in A. cbn [all_messages nothing_collected app] in A.
  rewrite A, findings_of_texts.
  do 2 eexists. split; [reflexivity|]. split; [reflexivity|].
  split; [reflexivity|]. split; [reflexivity|]. split; [reflexivity|].
  cbn [re_findings_length].
  assert (Len : (if truthy_str (String.concat "" (research_texts cs))
                 then String.length (String.concat "" (research_texts cs))
                 else 0)
                = String.length (String.concat "" (research_texts cs))).
  { destruct (String.concat "" (research_texts cs)); reflexivity. }
  split; [exact Len|].
  intros H.
  assert (E : research_texts cs = []).
  { unfold research_texts. clear - H.
    induction cs as [|c cs IH]; [reflexivity|]. cbn [flat_map].
    rewrite IH by (intros; apply H; [now right|assumption]).
    destruct (has_type c "assistant_message") eqn:T; [|reflexivity].
    now rewrite (H c (or_introl eq_refl) T). }
  rewrite Len, E. split; reflexivity.
Qed.

End Facts.

(** ** The sort *)

Lemma key_le_trans (a b c : nat * string) :
  key_le a b = true -> key_le b c = true -> key_le a c = true.
Proof.
  unfold key_le. rewrite !negb_true_iff. intros H1 H2.
  destruct (key_lt c a) eqn:E; [|reflexivity].
  destruct (key_lt_cotrans c b a E); congruence.
Qed.

Lemma key_le_of_not_lt (a b : nat * string) :
  key_lt a b = false -> key_le b a = true.
Proof. unfold key_le. now intros ->. Qed.

Lemma key_le_of_lt (a b : nat * string) :
  key_lt a b = true -> key_le a b = true.
Proof. intros H. unfold key_le. now rewrite (key_lt_asym a b H). Qed.

Section SortFacts.
Context {A : Type} (key : A -> nat * string).

Lemma insert_permutation (x : A) (l : list A) :
  Permutation (x :: l) (insert key x l).
Proof.
  induction l as [|y l IH]; cbn [insert]; [reflexivity|].
  destruct (key_lt (key y) (key x)); [|reflexivity].
  rewrite perm_swap. now apply perm_skip.
Qed.

Lemma sorted_permutation (l : list A) : Permutation l (sorted key l).
Proof.
  induction l as [|x l IH]; cbn [sorted]; [reflexivity|].
  rewrite <- insert_permutation. now apply perm_skip.
Qed.

Lemma insert_sorted (x : A) (l : list A) :
  StronglySorted (le_by key) l -> StronglySorted (le_by key) (insert key x l).
Proof.
  induction 1 as [|y l S IH F]; cbn [insert].
  - repeat constructor.
  - destruct (key_lt (key y) (key x)) eqn:L.
    + constructor; [exact IH|].
      rewrite <- (insert_permutation x l).
      constructor; [now apply key_le_of_lt|exact F].
    + constructor; [now constructor|].
      assert (Lxy : le_by key x y) by now apply key_le_of_not_lt.
      constructor; [exact Lxy|].
      eapply Forall_impl; [|exact F].
      intros z Hz. eapply key_le_trans; eassumption.
Qed.

Lemma sorted_is_sorted (l : list A) :
  StronglySorted (le_by key) (sorted key l).
Proof.
  induction l as [|x l IH]; cbn [sorted]; [constructor|].
  now apply insert_sorted.
Qed.

End SortFacts.

(** X12.  The sorted list of [run_research_cycle] holds the active topics,
    each as often as the active list does, in non-decreasing order of
    their keys. *)
Theorem sorted_topics_is_a_sorted_permutation (act : list Topic) :
  Permutation act (sorted_topics act) /\ key_sorted (sorted_topics act).
Proof.
  split; [apply sorted_permutation|apply sorted_is_sorted].
Qed.

(** ** The cycle *)

Lemma seq_split_index (a : list nat) :
  forall s n i b, seq s n = a ++ i :: b -> i = s + List.length a.
Proof.
  induction a as [|x a IH]; intros s n i b; destruct n as [|n];
    cbn [seq app List.length]; try discriminate.
  - intros [= <- _]. lia.
  - intros [= _ H]. apply IH in H. lia.
Qed.

Lemma combine_seq_fst (l : list Topic) :
  forall s, map fst (combine (seq s (List.length l)) l) = seq s (List.length l).
Proof.
  induction l as [|t l IH]; intros s; [reflexivity|].
  cbn [List.length seq combine map fst]. now rewrite IH.
Qed.

(** The object picked stands at the first place of least key. *)
Lemma select_index_position (act : list Topic) (i : nat) (t : Topic) :
  select_index act = Some (i, t) ->
  exists l1 l2,
    act = l1 ++ t :: l2
    /\ List.length l1 = i
    /\ (forall u, In u l1 -> key_lt (sort_key t) (sort_key u) = true)
    /\ (forall u, In u l2 -> key_lt (sort_key u) (sort_key t) = false).
Proof.
  unfold select_index, enumerate. intros H.
  apply hd_sorted_first_least in H as (e1 & e2 & E & B & Aft).
  exists (map snd e1), (map snd e2).
  pose proof (f_equal (map snd) E) as Es.
  pose proof (f_equal (map fst) E) as Ef.
  rewrite combine_seq_snd, map_app in Es.
  rewrite combine_seq_fst, map_app in Ef. cbn [map fst snd] in Es, Ef.
  apply seq_split_index in Ef. rewrite length_map in Ef.
  split; [exact Es|]. split; [rewrite length_map; lia|]. split.
  - intros u Hu. apply in_map_iff in Hu as ([j u'] & <- & Hu). exact (B _ Hu).
  - intros u Hu. apply in_map_iff in Hu as ([j u'] & <- & Hu). exact (Aft _ Hu).
Qed.

Lemma select_next_index (act : list Topic) (t : Topic) :
  select_next act = Some t -> exists i, select_index act = Some (i, t).
Proof.
  rewrite <- select_index_select_next.
  destruct (select_index act) as [[i t']|]; [|discriminate].
  intros [= <-]. now exists i.
Qed.

Lemma set_nth_middle (l1 l2 : list Topic) (t t' : Topic) :
  set_nth (List.length l1) t' (l1 ++ t :: l2) = l1 ++ t' :: l2.
Proof. induction l1 as [|x l1 IH]; cbn; [reflexivity|now rewrite IH]. Qed.

Section Cycle.
Context {J : JsonLib}.

(** X13.  A cycle that finds a topic and reads the stream to its end
    researches the topic [select_next] gives: it saves the queue with
    that topic, at the first place of least key, given the clock reading
    as its timestamp and with nothing else changed, and logs one
    successful entry for it. *)
Theorem cycle_stamps_the_selected_topic
    (researched_at logged_at : string) (stream : list StreamItem)
    (w w1 : World) (topics : Topics) (t : Topic) (cs : list Chunk) :
  faithful J ->
  load_topics w = (Ok topics, w1) ->
  select_next (active topics) = Some t ->
  chunks_read stream = Ok cs ->
  exists r w2 l1 l2 e,
    run_research_cycle researched_at logged_at stream w = (Ok (Some r), w2)
    /\ active topics = l1 ++ t :: l2
    /\ (forall u, In u l1 -> key_lt (sort_key t) (sort_key u) = true)
    /\ load_topics w2
       = (Ok {| active := l1 ++ stamp t researched_at :: l2;
                completed := completed topics |}, w2)
    /\ research_log w2 = research_log w1 ++ [e]
    /\ re_topic_id e = id t
    /\ re_success e = true.
Proof.
  intros F L S R.
  destruct (select_next_index _ _ S) as [i Si].
  destruct (select_index_position _ _ _ Si) as (l1 & l2 & E & Len & B & _).
  unfold run_research_cycle. rewrite L, Si.
  rewrite (conduct_research_read _ _ _ _ _ cs R). cbn zeta.
  destruct (active topics) as [|x rest] eqn:A;
    [destruct l1; discriminate E|].
  rewrite <- Len, E, set_nth_middle.
  do 5 eexists. split; [reflexivity|]. split; [reflexivity|].
  split; [exact B|]. split; [apply (load_saved _ _ F)|].
  split; [reflexivity|]. split; reflexivity.
Qed.

(** X14.  A cycle that researches nothing writes nothing: with no active
    topic it returns without a log entry, and when the transport raises
    while the stream is read it raises the same exception, logs the
    failure for the topic selected, and leaves the topics file as loaded,
    so that the topic keeps its old timestamp. *)
Theorem unfinished_cycle_keeps_the_queue
    (researched_at logged_at : string) (stream : list StreamItem)
    (w w1 : World) (topics : Topics) :
  load_topics w = (Ok topics, w1) ->
  (active topics = [] ->
   run_research_cycle researched_at logged_at stream w = (Ok None, w1))
  /\ (forall t e,
        select_next (active topics) = Some t ->
        chunks_read stream = Raise e ->
        run_research_cycle researched_at logged_at stream w
          = (Raise e, log_research logged_at t false None (Some e) w1)
        /\ topics_file
             (snd (run_research_cycle researched_at logged_at stream w))
           = topics_file w1).
Proof.
  intros L. split.
  - intros A. unfold run_research_cycle. now rewrite L, A.
  - intros t e S R.
    destruct (select_next_index _ _ S) as [i Si].
    unfold run_research_cycle. rewrite L, Si.
    rewrite (conduct_research_fault _ _ _ _ _ e R).
    destruct (active topics) as [|x rest] eqn:A; [discriminate S|].
    split; reflexivity.
Qed.

End Cycle.

Lemma sort_key_stamp (t : Topic) (ts : string) :
  ("1970-01-01" <? ts)%string = true ->
  sort_key (stamp t ts) = (rank t, ts).
Proof.
  intros H. unfold sort_key, stamp, rank. cbn.
  destruct ts; [discriminate H|reflexivity].
Qed.

(** X15.  A topic that was just researched is not selected again while a
    topic never researched, of the same rank or a better one, is active:
    the topic selected then has a smaller key. *)
Theorem researched_topic_yields_to_a_fresh_one
    (l1 l2 : list Topic) (t u : Topic) (ts : string) :
  ("1970-01-01" <? ts)%string = true ->
  In u (l1 ++ l2) ->
  last_researched u = None ->
  rank u <= rank t ->
  exists s,
    select_next (l1 ++ stamp t ts :: l2) = Some s
    /\ s <> stamp t ts
    /\ key_lt (sort_key s) (sort_key (stamp t ts)) = true.
Proof.
  intros Hts Hu Hn Hr.
  assert (Hu' : In u (l1 ++ stamp t ts :: l2)).
  { apply in_app_or in Hu as [Hu|Hu]; apply in_or_app;
      [now left|right; now right]. }
  assert (Lt : key_lt (sort_key u) (sort_key (stamp t ts)) = true).
  { rewrite (sort_key_stamp t ts Hts). apply key_lt_spec.
    unfold sort_key at 1 2 3. cbn [fst snd]. rewrite Hn.
    fold (rank u). destruct (Nat.eq_dec (rank u) (rank t)) as [E|N].
    - right. unfold rank in E. cbn [sort_key fst] in E. split; [exact E|exact Hts].
    - left. unfold rank in *. cbn [sort_key fst] in *. lia. }
  destruct (select_next (l1 ++ stamp t ts :: l2)) as [s|] eqn:S.
  - exists s. split; [reflexivity|].
    destruct (select_next_least _ s S) as [_ Least].
    specialize (Least u Hu'). unfold key_le in Least.
    apply negb_true_iff in Least.
    assert (Ls : key_lt (sort_key s) (sort_key (stamp t ts)) = true).
    { destruct (key_lt_cotrans _ (sort_key s) _ Lt) as [C|C];
        [congruence|exact C]. }
    split; [|exact Ls].
    intros ->. rewrite key_lt_irrefl in Ls. discriminate.
  - exfalso. rewrite select_next_hd in S.
    destruct (hd_sorted_some sort_key (l1 ++ stamp t ts :: l2)) as [s' Hs];
      [destruct l1; discriminate|].
    fold (sorted_topics (l1 ++ stamp t ts :: l2)) in Hs. congruence.
Qed.

End ResearchMore.

(* ================================================================== *)
(** * The listing *)
(* ================================================================== *)

Module ListingMore.
Import Letta Research ResearchCli StringFacts Terms ResearchMore.

Lemma active_section_line (act : list Topic) :
  forall i n t,
    nth_error act n = Some t ->
    In (str_of_nat (i + n) ++ ". [" ++ upper (priority t) ++ "] " ++ title t)%string
       (active_section i act).
Proof.
  induction act as [|x act IH]; intros i [|n] t; cbn [nth_error];
    try discriminate.
  - intros [= ->]. rewrite Nat.add_0_r. cbn [active_section].
    apply in_or_app. left. unfold active_lines. now left.
  - intros H. cbn [active_section]. apply in_or_app. right.
    replace (i + S n) with (S i + n) by lia. now apply IH.
Qed.

Lemma last_five_length {A} (l : list A) :
  List.length (last_five l) = Nat.min 5 (List.length l).
Proof. unfold last_five. rewrite length_skipn. lia. Qed.

Lemma last_five_suffix {A} (l : list A) :
  firstn (List.length l - 5) l ++ last_five l = l.
Proof. apply firstn_skipn. Qed.

Section Listing.
Context {J : JsonLib}.

(** X16.  The listing shows every active topic on a line numbered from 1
    in the order of the queue, with its priority in capitals, and of the
    completed topics the last five only, in their order; listing changes
    no log, and writes the topics file only when it is missing. *)
Theorem listing_shows_the_queue (w : World) :
  match list_topics w with
  | (Ok lines, w1) =>
      exists topics,
        load_topics w = (Ok topics, w1)
        /\ (forall n t,
              nth_error (active topics) n = Some t ->
              In (str_of_nat (S n) ++ ". [" ++ upper (priority t) ++ "] "
                  ++ title t)%string lines)
        /\ (forall t,
              In t (last_five (completed topics)) ->
              In ("✓ " ++ title t)%string lines)
        /\ List.length (completed_section (completed topics))
           = match completed topics with
             | [] => 0
             | _ :: _ => 1 + Nat.min 5 (List.length (completed topics))
             end
        /\ List.length lines
           = 1 + List.length (active_section 1 (active topics))
             + List.length (completed_section (completed topics))
        /\ post_log w1 = post_log w
        /\ research_log w1 = research_log w
        /\ (topics_file w <> None -> w1 = w)
  | (Raise e, w1) => w1 = w
  end.
Proof.
  unfold list_topics.
  destruct (load_topics w) as [[topics|e] w1] eqn:L.
  - exists topics. split; [reflexivity|].
    unfold listing. split.
    + intros n t H. right. apply in_or_app. left.
      exact (active_section_line (active topics) 1 n t H).
    + split.
      * intros t H. right. apply in_or_app. right.
        unfold completed_section.
        destruct (completed topics) as [|x done] eqn:C; [destruct H|].
        right. apply in_map_iff. now exists t.
      * split.
        -- unfold completed_section.
           destruct (completed topics) as [|x done]; [reflexivity|].
           cbn [List.length]. now rewrite length_map, last_five_length.
        -- split; [cbn [List.length]; rewrite length_app; lia|].
           unfold load_topics in L.
           destruct (topics_file w) as [p|].
           ++ destruct (json_loads p) as [v|]; [|discriminate].
              destruct (topics_of_json v); [|discriminate].
              injection L as _ <-. repeat split.
           ++ injection L as _ <-. repeat split. congruence.
  - unfold load_topics in L.
    destruct (topics_file w) as [p|]; [|discriminate].
    destruct (json_loads p) as [v|]; [|now injection L].
    destruct (topics_of_json v); [discriminate|now injection L].
Qed.

End Listing.
End ListingMore.

(* ================================================================== *)
(** * The reply builder, further *)
(* ================================================================== *)

Module ReplyMore.
Import Letta Reply StringFacts ReplyProofs Terms.

(** ** [replace] and [split] on text without the pattern *)

Lemma prefix_decompose (p : string) :
  forall s, prefix p s = true -> exists s', s = (p ++ s')%string.
Proof.
  induction p as [|a p IH]; intros [|b s]; cbn [prefix];
    try discriminate; try (intros _; eexists; reflexivity).
  destruct (ascii_dec a b) as [<-|N]; [|discriminate].
  intros H. apply IH in H as [s' ->]. now exists s'.
Qed.

Lemma replace_nowhere (old new : string) (s : string) :
  nowhere old s -> replace old new s = s.
Proof.
  unfold replace. induction s as [|c s IH]; intros H; [reflexivity|].
  cbn [replace_from]. rewrite (H "" (String c s) eq_refl).
  rewrite IH; [reflexivity|].
  intros a b E. apply (H (String c a) b). now rewrite E.
Qed.

Lemma split_segment (s : string) :
  no_slash s = true -> split "/"%char s = [s].
Proof.
  induction s as [|c s IH]; [reflexivity|]. cbn [no_slash split].
  intros H. apply andb_true_iff in H as [Hc Hs].
  apply negb_true_iff in Hc. rewrite Hc, (IH Hs). reflexivity.
Qed.

Lemma split_at_slash (a b : string) :
  no_slash a = true ->
  split "/"%char (a ++ String "/"%char b) = a :: split "/"%char b.
Proof.
  induction a as [|c a IH]; [reflexivity|]. cbn [no_slash split append].
  intros H. apply andb_true_iff in H as [Hc Ha].
  apply negb_true_iff in Hc. rewrite Hc, (IH Ha). reflexivity.
Qed.

Lemma split_not_nil (s : string) : split "/"%char s <> [].
Proof.
  induction s as [|c s IH]; cbn [split]; [discriminate|].
  destruct (Ascii.eqb c "/"); [discriminate|].
  destruct (split "/"%char s); [contradiction|discriminate].
Qed.

Lemma last_cons_not_nil (x : string) (l : list string) :
  l <> [] -> last (x :: l) "" = last l "".
Proof. destruct l; [contradiction|reflexivity]. Qed.

Lemma split_after_slash (a k : string) :
  no_slash k = true ->
  exists x l,
    split "/"%char (a ++ String "/"%char k) = x :: l
    /\ l <> [] /\ last l "" = k.
Proof.
  intros Hk. induction a as [|c a (x & l & E & N & L)]; cbn [append split].
  - cbn [Ascii.eqb Bool.eqb]. rewrite (split_segment k Hk).
    exists "", [k]. repeat split. discriminate.
  - rewrite E. destruct (Ascii.eqb c "/").
    + exists "", (x :: l). repeat split; [discriminate|].
      now rewrite last_cons_not_nil.
    + exists (String c x), l. auto.
Qed.

(** The last part of a text is what follows its last slash. *)
Lemma last_item_after_slash (a k : string) :
  no_slash k = true ->
  last_item (split "/"%char (a ++ String "/"%char k)) = k.
Proof.
  intros Hk. destruct (split_after_slash a k Hk) as (x & l & -> & N & L).
  unfold last_item. now rewrite last_cons_not_nil.
Qed.

Lemma prefix_self (p : string) : forall s, prefix p (p ++ s) = true.
Proof.
  induction p as [|a p IH]; intros s; cbn [append prefix].
  - destruct s; reflexivity.
  - destruct (ascii_dec a a) as [_|N]; [apply IH|contradiction].
Qed.

Lemma replace_from_skip (old new : string) (x : string) :
  forall rest,
    replace_from old new (x ++ rest) (String.length x)
    = replace_from old new rest 0.
Proof.
  induction x as [|c x IH]; intros rest; [reflexivity|].
  cbn [append String.length replace_from]. apply IH.
Qed.

(** An occurrence at the start is replaced, and the search goes on after
    it. *)
Lemma replace_at_start (c : ascii) (old' new rest : string) :
  replace (String c old') new (String c old' ++ rest)
  = (new ++ replace (String c old') new rest)%string.
Proof.
  unfold replace. cbn [append replace_from].
  pose proof (prefix_self (String c old') rest) as P.
  cbn [append] in P. rewrite P.
  replace (String.length (String c old') - 1) with (String.length old')
    by (cbn [String.length]; lia).
  now rewrite replace_from_skip.
Qed.

Lemma single_slashes_double (a b : string) :
  single_slashes (a ++ String "/"%char (String "/"%char b)) = false.
Proof.
  induction a as [|c a IH]; [reflexivity|].
  cbn [append single_slashes].
  destruct (a ++ String "/"%char (String "/"%char b))%string eqn:E.
  - destruct a; discriminate E.
  - rewrite IH. apply andb_false_r.
Qed.

Lemma single_slashes_nowhere (s : string) :
  single_slashes s = true -> nowhere "at://" s.
Proof.
  intros H a b E. destruct (prefix "at://" b) eqn:P; [|reflexivity].
  apply prefix_decompose in P as [b' ->]. subst s.
  change ("at://" ++ b')%string
    with ("at:" ++ String "/"%char (String "/"%char b'))%string in H.
  rewrite <- append_assoc, single_slashes_double in H. discriminate.
Qed.

Lemma single_slashes_segment (s : string) :
  no_slash s = true -> single_slashes s = true.
Proof.
  induction s as [|c s IH]; [reflexivity|]. cbn [no_slash single_slashes].
  intros H. apply andb_true_iff in H as [Hc Hs].
  apply negb_true_iff in Hc. destruct s; [reflexivity|].
  rewrite Hc, (IH Hs). reflexivity.
Qed.

Lemma single_slashes_after_slash (s : string) :
  no_slash s = true -> single_slashes (String "/"%char s) = true.
Proof.
  intros H. cbn [single_slashes]. destruct s as [|c s]; [reflexivity|].
  rewrite (single_slashes_segment _ H).
  cbn [no_slash] in H. apply andb_true_iff in H as [Hc _].
  apply negb_true_iff in Hc. now rewrite Hc.
Qed.

Lemma single_slashes_cons (c : ascii) (s : string) :
  Ascii.eqb c "/"%char = false -> single_slashes s = true ->
  single_slashes (String c s) = true.
Proof.
  intros Hc Hs. cbn [single_slashes]. destruct s; [reflexivity|].
  now rewrite Hc, Hs.
Qed.

Lemma single_slashes_record_path (did rkey : string) :
  no_slash did = true -> no_slash rkey = true ->
  single_slashes (did ++ "/app.bsky.feed.post/" ++ rkey) = true.
Proof.
  intros Hd Hk. induction did as [|c did IH].
  - cbn [append single_slashes Ascii.eqb Bool.eqb andb negb].
    apply (single_slashes_after_slash rkey Hk).
  - cbn [no_slash] in Hd. apply andb_true_iff in Hd as [Hc Hd].
    apply negb_true_iff in Hc.
    change (String c did ++ "/app.bsky.feed.post/" ++ rkey)%string
      with (String c (did ++ "/app.bsky.feed.post/" ++ rkey))%string.
    apply single_slashes_cons; auto.
Qed.

(** The three parts [fetch_post] finds in the URI that [get_post_uri]
    makes. *)
Lemma record_uri_parts (did rkey : string) :
  no_slash did = true -> no_slash rkey = true ->
  split "/"%char
    (replace "at://" "" ("at://" ++ did ++ "/app.bsky.feed.post/" ++ rkey))
  = [did; "app.bsky.feed.post"; rkey].
Proof.
  intros Hd Hk.
  rewrite (replace_at_start "a" "t://" "" _).
  rewrite (replace_nowhere "at://" "" _
             (single_slashes_nowhere _ (single_slashes_record_path did rkey Hd Hk))).
  change ("" ++ did ++ "/app.bsky.feed.post/" ++ rkey)%string
    with (did ++ String "/"%char
                   ("app.bsky.feed.post" ++ String "/"%char rkey))%string.
  rewrite (split_at_slash did _ Hd).
  rewrite (split_at_slash "app.bsky.feed.post" rkey eq_refl).
  now rewrite (split_segment rkey Hk).
Qed.

(** X17.  For a repository identifier and a record key without a slash,
    [fetch_post] on the URI that [get_post_uri] makes asks for the record
    of that repository, of the collection of posts and of that key, and
    then for the profile of that repository; the display name it returns
    is the profile's when that is not empty and the handle otherwise. *)
Theorem fetch_post_reads_the_resolved_record
    (bsky : Bsky) (handle rkey did : string) :
  resolve_handle bsky handle = Ok did ->
  no_slash did = true ->
  no_slash rkey = true ->
  get_post_uri bsky handle rkey
    = Ok ("at://" ++ did ++ "/app.bsky.feed.post/" ++ rkey)%string
  /\ fetch_post bsky ("at://" ++ did ++ "/app.bsky.feed.post/" ++ rkey)
     = (post_record <- get_record bsky did "app.bsky.feed.post" rkey ;;
        profile <- get_profile bsky did ;;
        Ok {| pd_uri := "at://" ++ did ++ "/app.bsky.feed.post/" ++ rkey;
              pd_cid := record_cid post_record;
              pd_author_handle := Reply.handle profile;
              pd_author_display_name :=
                match display_name profile with
                | Some n => if n =? "" then Reply.handle profile else n
                | None => Reply.handle profile
                end;
              pd_text := record_text post_record |}).
Proof.
  intros R Hd Hk. split.
  - unfold get_post_uri. now rewrite R.
  - unfold fetch_post. rewrite (record_uri_parts did rkey Hd Hk).
    destruct (get_record bsky did "app.bsky.feed.post" rkey); [|reflexivity].
    cbn [bind]. destruct (get_profile bsky did) as [p|]; [|reflexivity].
    cbn [bind]. unfold truthy_str.
    destruct (display_name p) as [n|]; [|reflexivity].
    destruct (n =? ""); reflexivity.
Qed.

(** ** The flow *)

Lemma replace_plus_free (ts : string) :
  free_of is_plus ts = true ->
  replace "+00:00" "Z" (ts ++ "+00:00") = (ts ++ "Z")%string.
Proof.
  unfold replace. induction ts as [|c ts IH]; [reflexivity|].
  cbn [free_of]. intros H. apply andb_true_iff in H as [Hc Hts].
  apply negb_true_iff in Hc. unfold is_plus in Hc.
  change (String c ts ++ "+00:00")%string with (String c (ts ++ "+00:00"))%string.
  cbn [replace_from prefix].
  destruct (ascii_dec "+" c) as [<-|N]; [discriminate Hc|].
  cbn [append]. now rewrite (IH Hts).
Qed.

Section Flow.
Context {J : JsonLib}.

Lemma collect_reply_from (stream : list StreamItem) :
  forall acc,
    match chunks_of stream with
    | Some cs =>
        collect_reply stream acc
        = Ok (acc ++ String.concat "" (reply_parts cs))%string
    | None => exists e, collect_reply stream acc = Raise e
    end.
Proof.
  induction stream as [|[c|e] rest IH]; intros acc;
    cbn [chunks_of collect_reply].
  - cbn. now rewrite append_empty_r.
  - specialize (IH (if has_type c "assistant_message"
                    then match content c with
                         | Some s => (acc ++ s)%string
                         | None => acc
                         end
                    else acc)).
    destruct (chunks_of rest) as [cs|]; [|exact IH].
    rewrite IH. unfold reply_parts. cbn [flat_map].
    fold (reply_parts cs).
    destruct (has_type c "assistant_message"); [|reflexivity].
    destruct (content c) as [t|]; [|reflexivity].
    cbn [app]. now rewrite concat_empty_cons, append_assoc.
  - now exists e.
Qed.

(** X18.  The reply loop reads the stream to its end, past a chunk whose
    [str] is 'done': when the transport raises nothing, the text
    collected is the contents of all the assistant messages of the
    stream, in order and with nothing between them; when the transport
    raises, so does the loop. *)
Theorem reply_text_is_read_from_the_whole_stream (stream : list StreamItem) :
  match chunks_of stream with
  | Some cs =>
      collect_reply stream "" = Ok (String.concat "" (reply_parts cs))
  | None => exists e, collect_reply stream "" = Raise e
  end.
Proof. exact (collect_reply_from stream ""). Qed.

(** What a flow that returns has done. *)
Lemma reply_returns (cfg : Config) (bsky : Bsky) (stream : list StreamItem)
    (now_utc post_url : string) (w w' : World) (res : ReplyResult) :
  reply_to_post cfg bsky stream now_utc post_url w = (Ok res, w') ->
  exists post_data reply_text response_uri,
    let request :=
      {| repo := me_did bsky;
         collection := "app.bsky.feed.post";
         record := reply_record post_data reply_text now_utc |} in
    w' = issue_create_record request w
    /\ create_record bsky request = Ok response_uri
    /\ res = {| res_success := true;
                res_reply_url :=
                  permalink (username cfg)
                    (last_item (split "/"%char response_uri));
                res_reply_text := reply_text |}.
Proof.
  unfold reply_to_post.
  destruct (_ <- login bsky (username cfg) (password cfg) ;; _)
    as [[post_data reply_text]|e]; [|discriminate].
  destruct (create_record bsky _) as [response_uri|e] eqn:C; [|discriminate].
  intros [= <- <-]. exists post_data, reply_text, response_uri.
  cbn zeta. split; [reflexivity|]. split; [exact C|reflexivity].
Qed.

(** X19.  No run issues more than one [create_record] call.  A flow that
    raises has issued none, unless what raised is that call itself; the
    topics file is never written. *)
Theorem reply_creates_at_most_one_record
    (cfg : Config) (bsky : Bsky) (stream : list StreamItem)
    (now_utc post_url : string) (w : World) :
  match reply_to_post cfg bsky stream now_utc post_url w with
  | (Ok res, w') =>
      exists request response_uri,
        w' = issue_create_record request w
        /\ create_record bsky request = Ok response_uri
  | (Raise e, w') =>
      w' = w
      \/ exists request,
           w' = issue_create_record request w
           /\ create_record bsky request = Raise e
  end
  /\ topics_file (snd (reply_to_post cfg bsky stream now_utc post_url w))
     = topics_file w.
Proof.
  unfold reply_to_post.
  destruct (_ <- login bsky (username cfg) (password cfg) ;; _)
    as [[post_data reply_text]|e]; [|split; [now left|reflexivity]].
  destruct (create_record bsky _) as [response_uri|e] eqn:C.
  - split; [|reflexivity]. eexists; eexists; split; [reflexivity|exact C].
  - split; [|reflexivity]. right. eexists; split; [reflexivity|exact C].
Qed.

(** X20.  The URL a reply returns is the permalink made of the account's
    user name and of what follows the last slash of the URI the service
    answered with; when both are segments, [parse_post_url] reads that
    user name and that record key back from it. *)
Theorem reply_url_is_a_permalink
    (cfg : Config) (bsky : Bsky) (stream : list StreamItem)
    (now_utc post_url : string) (w w' : World) (res : ReplyResult) :
  reply_to_post cfg bsky stream now_utc post_url w = (Ok res, w') ->
  exists request response_uri,
    create_record bsky request = Ok response_uri
    /\ forall a k,
         response_uri = (a ++ String "/"%char k)%string ->
         segment k ->
         res_reply_url res = permalink (username cfg) k
         /\ (segment (username cfg) ->
             parse_post_url (res_reply_url res) = Ok (username cfg, k)).
Proof.
  intros H. apply reply_returns in H
    as (post_data & reply_text & response_uri & _ & C & ->).
  eexists; exists response_uri. split; [exact C|].
  intros a k -> [Hk0 Hk]. cbn [res_reply_url].
  rewrite (last_item_after_slash a k Hk). split; [reflexivity|].
  intros Hu. now apply parse_permalink.
Qed.

(** X21.  With a clock reading that ends in the UTC offset and holds no
    other plus, the record a reply submits is stamped with that reading,
    'Z' in place of the offset; it is a post record, created in the
    collection of posts of the account logged in. *)
Theorem reply_record_is_stamped_in_utc
    (cfg : Config) (bsky : Bsky) (stream : list StreamItem)
    (ts post_url : string) (w w' : World) (res : ReplyResult) :
  reply_to_post cfg bsky stream (ts ++ "+00:00") post_url w = (Ok res, w') ->
  free_of is_plus ts = true ->
  exists request,
    created w' = created w ++ [request]
    /\ createdAt (record request) = (ts ++ "Z")%string
    /\ type_ (record request) = "app.bsky.feed.post"
    /\ collection request = "app.bsky.feed.post"
    /\ repo request = me_did bsky.
Proof.
  intros H Hts. apply reply_returns in H
    as (post_data & reply_text & response_uri & -> & _ & _).
  eexists. split; [reflexivity|].
  cbn [record reply_record createdAt type_ collection repo].
  rewrite (replace_plus_free ts Hts). repeat split.
Qed.

(** X22.  The script exits with 0 exactly when it was given a URL, the
    configurations were read and the flow returned; it never reports a
    result without success, since the flow returns none; without a URL
    it prints the usage and contacts no service. *)
Theorem reply_exit_status
    (args : list string) (configs : result Config) (bsky : Bsky)
    (stream : list StreamItem) (now_utc : string) (w : World) :
  (fst (fst (ReplyCli.main args configs bsky stream now_utc w)) = 0
   <-> exists post_url rest cfg res,
         args = post_url :: rest
         /\ configs = Ok cfg
         /\ fst (reply_to_post cfg bsky stream now_utc post_url w) = Ok res)
  /\ ~ In ReplyCli.Failed
         (snd (fst (ReplyCli.main args configs bsky stream now_utc w)))
  /\ (args = [] ->
      ReplyCli.main args configs bsky stream now_utc w
      = (1, [ReplyCli.Usage], w)).
Proof.
  unfold ReplyCli.main. destruct args as [|post_url rest].
  - split; [split; [discriminate|intros (? & ? & ? & ? & [=] & _)]|].
    split; [intros [[=]|[]]|reflexivity].
  - destruct configs as [cfg|e].
    + destruct (reply_to_post cfg bsky stream now_utc post_url w)
        as [[res|e] w'] eqn:R.
      * destruct (reply_returns _ _ _ _ _ _ _ _ R)
          as (pd & rt & ru & _ & _ & ->).
        cbn [res_success fst snd].
        split; [split; [intros _|reflexivity]|].
        -- exists post_url, rest, cfg. eexists.
           split; [reflexivity|]. split; [reflexivity|].
           rewrite R. reflexivity.
        -- split; [intros [[=]|[]]|discriminate].
      * cbn [fst snd]. split; [split; [discriminate|]|].
        -- intros (u & r & c & res & [= <- <-] & [= <-] & H).
           rewrite R in H. discriminate.
        -- split; [intros [[=]|[]]|discriminate].
    + cbn [fst snd]. split; [split; [discriminate|]|].
      * intros (u & r & c & res & _ & [=] & _).
      * split; [intros [[=]|[]]|discriminate].
Qed.

End Flow.
End ReplyMore.

(* ================================================================== *)
(** * The invocation helper *)
(* ================================================================== *)

Module InvokeMore.
Import Letta Invoke StringFacts Terms.

Section Facts.
Context {J : JsonLib}.

Lemma invoke_collect_fold (stream : list StreamItem) :
  forall st,
    collect stream st =
      match chunks_read stream with
      | Ok cs => Ok (fold_left (fun s c => on_chunk c s) cs st)
      | Raise e => Raise e
      end.
Proof.
  induction stream as [|[c|e] rest IH]; intros st; cbn [collect chunks_read];
    try reflexivity.
  destruct (str c =? "done"); [reflexivity|].
  rewrite IH. destruct (chunks_read rest); reflexivity.
Qed.

Lemma filter_first {A} (f : A -> bool) (x : A) (l : list A) :
  filter f (x :: l) = filter f [x] ++ filter f l.
Proof. cbn. destruct (f x); reflexivity. Qed.

(** What the loop body adds to the three lists. *)
Lemma invoke_on_chunk_effect (c : Chunk) (st : Response) :
  messages (on_chunk c st) = messages st ++ kept_messages [c]
  /\ tool_calls (on_chunk c st)
     = tool_calls st ++ function_call_messages [c]
  /\ reasoning (on_chunk c st)
     = reasoning st ++ chunks_of_type "reasoning_message" [c].
Proof.
  unfold on_chunk, kept_messages, function_call_messages, chunks_of_type,
    has_type. cbn [filter].
  destruct (message_type c) as [mt|];
    [|cbn; rewrite !app_nil_r; auto].
  destruct (String.eqb_spec mt "reasoning_message") as [->|N1];
    [cbn; rewrite !app_nil_r; auto|].
  destruct (String.eqb_spec mt "function_call_message") as [->|N2];
    [cbn; rewrite !app_nil_r; auto|].
  destruct (String.eqb_spec mt "assistant_message") as [->|N3];
    [cbn; rewrite !app_nil_r; auto|].
  destruct (String.eqb_spec mt "function_return") as [->|N4];
    cbn; rewrite !app_nil_r; auto.
Qed.

Lemma invoke_fold_collected (cs : list Chunk) :
  forall st,
    let st' := fold_left (fun s c => on_chunk c s) cs st in
    messages st' = messages st ++ kept_messages cs
    /\ tool_calls st' = tool_calls st ++ function_call_messages cs
    /\ reasoning st' = reasoning st ++ chunks_of_type "reasoning_message" cs.
Proof.
  induction cs as [|c cs IH]; intros st.
  - cbn. rewrite !app_nil_r. auto.
  - cbn [fold_left]. cbn zeta in IH |- *.
    destruct (IH (on_chunk c st)) as (M & T & R).
    destruct (invoke_on_chunk_effect c st) as (M1 & T1 & R1).
    rewrite M, T, R, M1, T1, R1.
    unfold kept_messages, function_call_messages, chunks_of_type.
    rewrite !(filter_first _ c cs), <- !app_assoc. auto.
Qed.

Lemma text_parts_kept (cs : list Chunk) :
  text_parts (kept_messages cs) = response_texts cs.
Proof.
  unfold kept_messages, response_texts.
  induction cs as [|c cs IH]; [reflexivity|]. cbn [filter flat_map].
  destruct (has_type c "assistant_message") eqn:A; cbn [orb].
  - cbn [text_parts]. unfold text_part. rewrite A, IH.
    destruct (text c) as [t|]; [reflexivity|].
    destruct (content c); reflexivity.
  - destruct (has_type c "function_return"); [|exact IH].
    cbn [text_parts]. unfold text_part. now rewrite A.
Qed.

(** X23.  When the transport raises nothing, [invoke_agent] returns the
    chunks read, sorted into messages (assistant messages and function
    returns), tool calls and reasoning, each in arrival order, and the
    text extracted from its messages is the line-by-line join of the text
    (or, failing that, the content) of the assistant messages read:
    function returns, tool calls and reasoning give no line.  When the
    transport raises, [invoke_agent] raises the same exception. *)
Theorem text_response_of_an_invocation (stream : list StreamItem) :
  match chunks_read stream with
  | Ok cs =>
      exists response,
        invoke_agent stream = Ok response
        /\ messages response = kept_messages cs
        /\ tool_calls response = function_call_messages cs
        /\ reasoning response = chunks_of_type "reasoning_message" cs
        /\ extract_text_response (Some (messages response))
           = String.concat (String "010"%char "") (response_texts cs)
  | Raise e => invoke_agent stream = Raise e
  end.
Proof.
  unfold invoke_agent. rewrite invoke_collect_fold.
  destruct (chunks_read stream) as [cs|e]; [|reflexivity].
  destruct (invoke_fold_collected cs nothing_collected) as (M & T & R).
  cbn zeta in M, T, R. cbn [nothing_collected messages tool_calls reasoning app]
    in M, T, R.
  eexists. split; [reflexivity|]. rewrite M, T, R.
  repeat split. unfold extract_text_response. now rewrite text_parts_kept.
Qed.

End Facts.
End InvokeMore.

(* ================================================================== *)
(** * Further statements on concrete runs *)
(* ================================================================== *)

Module MoreRuns.
Import Letta Scenario Cases Terms.

(** X1 on a stream that goes on after 'done'. *)
Lemma chunks_after_done_are_ignored_witness :
  Poster.generate_autonomous_post "topic" "2026-11-04T12:00:00" late_stream
    true world0
  = Poster.generate_autonomous_post "topic" "2026-11-04T12:00:00"
      [Yield (assistant "early "); Yield done] true world0.
Proof.
  exact (PosterMore.chunks_after_done_are_ignored
           "topic" "2026-11-04T12:00:00" [Yield (assistant "early ")] done
           [Yield (assistant "late")] true world0 eq_refl).
Defined.

(** X2 on the stream that posts between two assistant messages. *)
Lemma outcome_reports_what_was_read_witness :
  exists r,
    fst (Poster.generate_autonomous_post "topic" "2026-11-04T12:00:00"
           posting_stream false world0) = Ok r
    /\ Poster.res_tool_calls r = 1
    /\ Poster.res_response r = "Drafting. Posted."
    /\ Poster.res_posted r = true.
Proof.
  eexists. split; [reflexivity|].
  destruct (PosterMore.outcome_reports_what_was_read
              "topic" "2026-11-04T12:00:00" posting_stream false world0
              [assistant "Drafting.";
               publish ["Primes are the atoms of arithmetic."];
               assistant "Posted."; done] _ eq_refl eq_refl)
    as (T & R & P & _).
  split; [exact T|]. split; [exact R|exact P].
Defined.

(** X3 on a post followed by a fault. *)
Lemma fault_is_logged_and_raised_witness :
  Poster.generate_autonomous_post "topic" "2026-11-04T12:00:00"
    posted_then_broken false world0
  = (Raise (ServiceError "connection reset"),
     Poster.log_post_attempt "2026-11-04T12:00:00" false "topic" JNull
       (Some (ServiceError "connection reset")) world0).
Proof.
  refine (PosterMore.fault_is_logged_and_raised
            "topic" "2026-11-04T12:00:00"
            [publish ["Posted before the fault."]]
            (ServiceError "connection reset") [] false world0 _ _).
  - intros c [<-|[]]. discriminate.
  - intros c tc [<-|[]] [= <-]. reflexivity.
Defined.

(** X4 on a call with empty arguments, in a dry run. *)
Lemma publish_without_text_raises_witness :
  Poster.generate_autonomous_post "topic" "2026-11-04T12:00:00"
    [Yield (assistant "Posting."); Yield (publish_with (JDict [])); Yield done]
    true world0
  = (Raise TypeError,
     Poster.log_post_attempt "2026-11-04T12:00:00" false "topic" JNull
       (Some TypeError) world0).
Proof.
  refine (PosterMore.publish_without_text_raises
            "topic" "2026-11-04T12:00:00"
            [Yield (assistant "Posting."); Yield (publish_with (JDict []));
             Yield done] true world0
            [assistant "Posting."; publish_with (JDict []); done]
            [assistant "Posting."] [done] (publish_with (JDict [])) _ []
            eq_refl eq_refl _ eq_refl eq_refl eq_refl _).
  - intros c' tc' [<-|[]]. discriminate.
  - intros c' [<-|[]]. reflexivity.
Defined.

(** X5 on a call whose [text] is the string 'Hello'. *)
Lemma text_as_string_gives_first_character_witness :
  exists r,
    fst (Poster.generate_autonomous_post "topic" "2026-11-04T12:00:00"
           [Yield (publish_with (JDict [("text", JStr "Hello")])); Yield done]
           false world0) = Ok r
    /\ Poster.res_posted r = true
    /\ Poster.res_content r = JStr "H".
Proof.
  refine (PosterMore.text_as_string_gives_first_character
            "topic" "2026-11-04T12:00:00"
            [Yield (publish_with (JDict [("text", JStr "Hello")])); Yield done]
            false world0
            [publish_with (JDict [("text", JStr "Hello")]); done]
            [] [done] (publish_with (JDict [("text", JStr "Hello")])) _
            [("text", JStr "Hello")] "H"%char "ello"
            eq_refl eq_refl _ eq_refl eq_refl eq_refl _).
  - intros c' tc' [].
  - intros c' [<-|[]]. reflexivity.
Defined.

(** X7 on a fresh deployment. *)
Lemma load_topics_is_repeatable_witness :
  Research.load_topics seeded_world = (Ok Research.default_topics, seeded_world).
Proof.
  exact (proj1 (QueueMore.load_topics_is_repeatable world0 seeded_world
                  Research.default_topics Runs.json_tree_faithful eq_refl)).
Defined.

(** X8 on two titles that differ by their capitals. *)
Lemma add_topic_keeps_colliding_ids_witness :
  exists t1 t2 w2 w3,
    Research.add_topic "AI Safety" "" "high" world0 = (Ok t1, w2)
    /\ Research.add_topic "ai safety" "again" "low" w2 = (Ok t2, w3)
    /\ Research.id t1 = Research.id t2
    /\ Research.load_topics w3
       = (Ok {| Research.active :=
                  Research.active Research.default_topics ++ [t1; t2];
                Research.completed := [] |}, w3).
Proof.
  exact (QueueMore.add_topic_keeps_colliding_ids
           "AI Safety" "ai safety" "" "again" "high" "low" world0 seeded_world
           Research.default_topics Runs.json_tree_faithful eq_refl eq_refl).
Defined.

(** X11 on a research with two texts. *)
Lemma research_findings_are_the_texts_witness :
  exists r e,
    fst (fst (Research.conduct_research "2026-11-04T12:00:00"
                "2026-11-04T12:00:01" research_stream topic_A world0)) = Ok r
    /\ Research.res_findings r
       = ("Two papers found." ++ String "010"%char "Stored.")%string
    /\ research_log
         (snd (Research.conduct_research "2026-11-04T12:00:00"
                 "2026-11-04T12:00:01" research_stream topic_A world0))
       = [e]
    /\ re_findings_length e = 26.
Proof.
  destruct (ResearchMore.research_findings_are_the_texts
              "2026-11-04T12:00:00" "2026-11-04T12:00:01" research_stream
              topic_A world0
              [call "web_search"; texted "Two papers found.";
               call "web_search"; call "archival_memory_insert";
               texted "Stored."; done] eq_refl)
    as (r & e & R & _ & F & L & _ & N & _).
  exists r, e. split; [exact R|]. split; [exact F|]. split; [exact L|exact N].
Defined.

(** X13 on a fresh deployment. *)
Lemma cycle_stamps_the_selected_topic_witness :
  exists r w2 rest,
    Research.run_research_cycle "2026-11-04T12:00:00" "2026-11-04T12:00:01"
      research_stream world0 = (Ok (Some r), w2)
    /\ fst (Research.load_topics w2)
       = Ok {| Research.active :=
                 stamp {| Research.id := "asi-alignment";
                          Research.title := "ASI Alignment and Safety Research";
                          Research.description :=
                            "Latest developments in AI safety, alignment, and superintelligence";
                          Research.priority := "high";
                          Research.last_researched := None |}
                   "2026-11-04T12:00:00" :: rest;
               Research.completed := [] |}.
Proof.
  destruct (ResearchMore.cycle_stamps_the_selected_topic
              "2026-11-04T12:00:00" "2026-11-04T12:00:01" research_stream
              world0 seeded_world Research.default_topics _
              [call "web_search"; texted "Two papers found.";
               call "web_search"; call "archival_memory_insert";
               texted "Stored."; done]
              Runs.json_tree_faithful eq_refl eq_refl eq_refl)
    as (r & w2 & l1 & l2 & e & C & A & B & L & _).
  destruct l1 as [|x l1].
  - injection A as <-. exists r, w2. eexists.
    split; [exact C|]. now rewrite L.
  - exfalso. injection A as <- _. specialize (B _ (or_introl eq_refl)).
    discriminate B.
Defined.

(** X14 on a fresh deployment and a broken stream. *)
Lemma unfinished_cycle_keeps_the_queue_witness :
  topics_file
    (snd (Research.run_research_cycle "2026-11-04T12:00:00"
            "2026-11-04T12:00:01" broken_stream world0))
  = topics_file seeded_world.
Proof.
  exact (proj2 (proj2 (ResearchMore.unfinished_cycle_keeps_the_queue
                         "2026-11-04T12:00:00" "2026-11-04T12:00:01"
                         broken_stream world0 seeded_world
                         Research.default_topics eq_refl)
                  _ (ServiceError "connection reset") eq_refl eq_refl)).
Defined.

(** X15 on A just researched and D never researched. *)
Lemma researched_topic_yields_to_a_fresh_one_witness :
  exists s,
    Research.select_next [stamp topic_A "2026-11-04T12:00:00"; topic_D] = Some s
    /\ s <> stamp topic_A "2026-11-04T12:00:00".
Proof.
  destruct (ResearchMore.researched_topic_yields_to_a_fresh_one
              [] [topic_D] topic_A topic_D "2026-11-04T12:00:00"
              eq_refl (or_introl eq_refl) eq_refl (le_n _))
    as (s & S & N & _).
  exists s. split; [exact S|exact N].
Defined.

(** X17 on alice.example's post. *)
Lemma fetch_post_reads_the_resolved_record_witness :
  Reply.fetch_post demo_bsky "at://did:plc:alice/app.bsky.feed.post/xyz123"
  = Ok {| Reply.pd_uri := "at://did:plc:alice/app.bsky.feed.post/xyz123";
          Reply.pd_cid := "bafyalice";
          Reply.pd_author_handle := "alice.example";
          Reply.pd_author_display_name := "Alice";
          Reply.pd_text := "hello world" |}.
Proof.
  exact (proj2 (ReplyMore.fetch_post_reads_the_resolved_record
                  demo_bsky "alice.example" "xyz123" "did:plc:alice"
                  eq_refl eq_refl eq_refl)).
Defined.

(** X20 on the reply to the example post. *)
Lemma reply_url_is_a_permalink_witness :
  Reply.parse_post_url
    (Reply.res_reply_url
       {| Reply.res_success := true;
          Reply.res_reply_url :=
            "https://bsky.app/profile/gauge.example/post/3kreply";
          Reply.res_reply_text := "hello back :)" |})
  = Ok ("gauge.example", "3kreply").
Proof.
  destruct (ReplyMore.reply_url_is_a_permalink
              demo_config demo_bsky reply_stream now_utc example_url world0
              _ _ Runs.reply_to_example_post)
    as (rq & uri & C & H).
  injection C as <-.
  refine (proj2 (H "at://did:plc:gauge/app.bsky.feed.post" "3kreply" eq_refl _) _);
    split; [discriminate|reflexivity|discriminate|reflexivity].
Defined.

(** X21 on the reply to the example post. *)
Lemma reply_record_is_stamped_in_utc_witness :
  exists request,
    created (snd (Reply.reply_to_post demo_config demo_bsky reply_stream
                    now_utc example_url world0)) = [request]
    /\ createdAt (record request) = "2026-11-04T12:00:00.000000Z".
Proof.
  destruct (ReplyMore.reply_record_is_stamped_in_utc
              demo_config demo_bsky reply_stream "2026-11-04T12:00:00.000000"
              example_url world0 _ _ Runs.reply_to_example_post eq_refl)
    as (rq & C & A & _).
  exists rq. split; [exact C|exact A].
Defined.

End MoreRuns.
